(** * Snake game: a shallow embedding of [snake.py] and its verified properties

    The Python classes [Snake] and [World] are embedded as records with
    explicit state passing.  Python integers are [Z], Python strings
    (direction codes and cell glyphs) are [string], the grid is a list of
    rows, and every operation that can raise returns a [result].  The random
    source used by [placeFood] is a list of raw draws that the sampling loop
    consumes. *)

From Stdlib Require Import ZArith String DecimalString.
From stdpp Require Import base decidable option list strings gmap.

Open Scope string_scope.
Open Scope Z_scope.

(** ** Exceptions and results *)

(** The exceptions the program can raise: the two explicit [raise Exception]
    sites, and the built-in errors of list indexing, dictionary lookup,
    unbound locals and the [str / str] expression. *)
Inductive exn : Type :=
  | Exception (msg : string)
  | TypeError
  | IndexError
  | KeyError
  | UnboundLocalError.

(** [Ok] is a normal return, [Raise] an exception, [OutOfDraws] a sampling
    loop that is still running when the supplied random draws (or loop fuel)
    are used up. *)
Inductive result (A : Type) : Type :=
  | Ok (a : A)
  | Raise (e : exn)
  | OutOfDraws.
Arguments Ok {A} a.
Arguments Raise {A} e.
Arguments OutOfDraws {A}.

(** Sequencing stops at the first exception; [x ← r; k] is stdpp's
    notation for it. *)
Global Instance result_bind : MBind result := fun A B k r =>
  match r with
  | Ok a => k a
  | Raise e => Raise e
  | OutOfDraws => OutOfDraws
  end.
Global Instance result_ret : MRet result := fun A a => Ok a.

(** Reduces a bind whose first computation has returned. *)
Ltac rsimpl := cbn [mbind result_bind mret result_ret].

Definition returns {A} (r : result A) : Prop := exists a, r = Ok a.

(** ** Python list indexing *)

(** [l[i]] accepts [-len(l) <= i < len(l)]; negative indices count from the
    end. *)
Definition py_norm (n : nat) (i : Z) : option nat :=
  if (0 <=? i) && (i <? Z.of_nat n) then Some (Z.to_nat i)
  else if (- Z.of_nat n <=? i) && (i <? 0) then Some (Z.to_nat (Z.of_nat n + i))
  else None.

Definition py_get {A} (l : list A) (i : Z) : result A :=
  match py_norm (length l) i with
  | Some k => match l !! k with Some x => Ok x | None => Raise IndexError end
  | None => Raise IndexError
  end.

Definition py_set {A} (l : list A) (i : Z) (x : A) : result (list A) :=
  match py_norm (length l) i with
  | Some k => Ok (<[k := x]> l)
  | None => Raise IndexError
  end.

(** [x in range(n)] *)
Definition in_range (x n : Z) : bool := (0 <=? x) && (x <? n).

(** ** Snake *)

(** A segment is the Python list [[distance, direction]]. *)
Abbreviation segment := (Z * string)%type.

(** The [chars] tuple, taken with its documented arity of four:
    (head, horizontal segments, vertical segments, tail).  Each glyph is a
    Python string; the constructor does not look at it. *)
Record Chars : Type := mkChars {
  c_head : string;
  c_horiz : string;
  c_vert : string;
  c_tail : string
}.

Definition default_chars : Chars := mkChars "X" "-" "|" "x".

(** What the default [segments] list holds when the [def] statement has
    just run.  The default is one list object: its contents change whenever
    a snake constructed without the argument turns or steps (see [Shared]). *)
Definition default_segments : list segment := [(0, "E")].

(** [cell in chars] and [cell in chars[1:]] *)
Definition in_chars (cell : string) (cs : Chars) : bool :=
  String.eqb cell (c_head cs) || String.eqb cell (c_horiz cs)
  || String.eqb cell (c_vert cs) || String.eqb cell (c_tail cs).

Definition in_chars_tail (cell : string) (cs : Chars) : bool :=
  String.eqb cell (c_horiz cs) || String.eqb cell (c_vert cs)
  || String.eqb cell (c_tail cs).

Record Snake : Type := mkSnake {
  length : Z;
  chars : Chars;
  segments : list segment
}.

(** The validation loop of [Snake.__init__]. *)
Fixpoint check_segments (len : Z) (segs : list segment) : result unit :=
  match segs with
  | [] => Ok tt
  | seg :: rest =>
      if fst seg >=? len - 1
      then Raise (Exception "Snake segments must begin before the tail")
      else check_segments len rest
  end.

(** [Snake.__init__] on the contents [segs] of the list object it
    receives: the list the caller passes or, when the argument is omitted,
    the default list as it is at the time of the call, which is
    [default_segments] only as long as no default-constructed snake has
    turned or stepped.  Which object is received, and who else holds it, is
    the matter of [Shared.Snake_init]. *)
Definition Snake_init (len : Z) (segs : list segment)
    (cs : option Chars) : result Snake :=
  let cs := default default_chars cs in
  _ ← check_segments len segs;
  Ok (mkSnake len cs segs).

(** [self.segments.insert(0, [-1, direction])] *)
Definition turn_segments (direction : string) (segs : list segment) : list segment :=
  (-1, direction) :: segs.

Definition turn (direction : string) (s : Snake) : Snake :=
  mkSnake (length s) (chars s) (turn_segments direction (segments s)).

Definition grow (n : Z) (s : Snake) : Snake :=
  mkSnake (length s + n) (chars s) (segments s).

(** ** World *)

Abbreviation grid := (list (list string)).

Record World : Type := mkWorld {
  snake : Snake;
  pos : Z * Z;
  height : Z;
  width : Z;
  foodchar : string;
  data : grid
}.

Definition set_snake (s : Snake) (w : World) : World :=
  mkWorld s (pos w) (height w) (width w) (foodchar w) (data w).
Definition set_data (d : grid) (w : World) : World :=
  mkWorld (snake w) (pos w) (height w) (width w) (foodchar w) d.

(** The class attribute [matrix_moves]; a missing key is a [KeyError]. *)
Definition matrix_moves (direction : string) : result (Z * Z) :=
  if String.eqb direction "N" then Ok (-1, 0)
  else if String.eqb direction "S" then Ok (1, 0)
  else if String.eqb direction "E" then Ok (0, 1)
  else if String.eqb direction "W" then Ok (0, -1)
  else Raise KeyError.

(** [self.data[p[0]][p[1]]] and [self.data[p[0]][p[1]] = x] *)
Definition cell_at (d : grid) (p : Z * Z) : result string :=
  row ← py_get d (fst p); py_get row (snd p).

Definition set_cell (d : grid) (p : Z * Z) (x : string) : result grid :=
  row ← py_get d (fst p);
  row' ← py_set row (snd p) x;
  py_set d (fst p) row'.

(** [gen]: an empty room *)
Definition gen_data (h w : Z) : grid :=
  replicate (Z.to_nat h) (replicate (Z.to_nat w) " ").

Definition gen (w : World) : World := set_data (gen_data (height w) (width w)) w.

(** *** step *)

(** The two loops of [step] over the segment list.  [range(2)] indexes
    [segments[0]] and [segments[1]] and raises [IndexError] when the list is
    too short. *)
Definition bump (seg : segment) : segment := (fst seg + 1, snd seg).

Definition step_segments (segs : list segment) : result (list segment) :=
  match segs with
  | [] => Raise IndexError
  | s0 :: rest =>
      if fst s0 =? -1 then
        match rest with
        | [] => Raise IndexError
        | s1 :: rest' => Ok (bump s0 :: bump s1 :: rest')
        end
      else Ok (s0 :: map bump rest)
  end.

Definition step (w : World) : result World :=
  segs ← step_segments (segments (snake w));
  s0 ← py_get segs 0;
  move ← matrix_moves (snd s0);
  Ok (mkWorld (mkSnake (length (snake w)) (chars (snake w)) segs)
              (fst (pos w) + fst move, snd (pos w) + snd move)
              (height w) (width w) (foodchar w) (data w)).

(** *** onFood and loss *)

Definition onFood (w : World) : result bool :=
  cell ← cell_at (data w) (pos w);
  Ok (String.eqb cell (foodchar w)).

(** The [or] chain is short-circuit: the grid is read only when both
    coordinates are in range. *)
Definition loss (w : World) : result bool :=
  if negb (in_range (fst (pos w)) (height w)) then Ok true
  else if negb (in_range (snd (pos w)) (width w)) then Ok true
  else
    cell ← cell_at (data w) (pos w);
    Ok (in_chars_tail cell (chars (snake w))).

(** *** insertSnake *)

(** The loop state of [insertSnake]: the grid, the 2-d [pointer] and the
    local [move], which is unbound until the first piece is drawn. *)
Record cursor : Type := mkCursor {
  cur_data : grid;
  cur_ptr : Z * Z;
  cur_move : option (Z * Z)
}.

(** The inner loop [for j in range(seg_length)]. *)
Fixpoint draw_pieces (n : nat) (h w : Z) (direction char : string)
    (st : cursor) : result cursor :=
  match n with
  | O => Ok st
  | S n' =>
      if negb (in_range (fst (cur_ptr st)) h) || negb (in_range (snd (cur_ptr st)) w)
      then Raise (Exception "Snake is out of bounds")
      else
        d ← set_cell (cur_data st) (cur_ptr st) char;
        move ← matrix_moves direction;
        draw_pieces n' h w direction char
          (mkCursor d (fst (cur_ptr st) - fst move, snd (cur_ptr st) - snd move)
                    (Some move))
  end.

(** [direction in ('E', 'W')] selects the horizontal glyph. *)
Definition is_horizontal (direction : string) : bool :=
  String.eqb direction "E" || String.eqb direction "W".

Definition seg_char (cs : Chars) (direction : string) : string :=
  if is_horizontal direction then c_horiz cs else c_vert cs.

(** The length of the segment at the front of [segs]: the distance to the
    next segment, or to the snake's length for the last one. *)
Definition seg_length (len : Z) (seg : segment) (rest : list segment) : Z :=
  match rest with
  | [] => len - fst seg
  | nxt :: _ => fst nxt - fst seg
  end.

(** The outer loop [for i in range(len(segs))]. *)
Fixpoint draw_segments (segs : list segment) (len h w : Z) (cs : Chars)
    (st : cursor) : result cursor :=
  match segs with
  | [] => Ok st
  | seg :: rest =>
      st' ← draw_pieces (Z.to_nat (seg_length len seg rest)) h w
              (snd seg) (seg_char cs (snd seg)) st;
      draw_segments rest len h w cs st'
  end.

Definition insertSnake (w : World) : result World :=
  let cs := chars (snake w) in
  st ← draw_segments (segments (snake w)) (length (snake w))
         (height w) (width w) cs (mkCursor (data w) (pos w) None);
  match cur_move st with
  | None => Raise UnboundLocalError
  | Some move =>
      let tail := (fst (cur_ptr st) + fst move, snd (cur_ptr st) + snd move) in
      d1 ← set_cell (cur_data st) tail (c_tail cs);
      d2 ← set_cell d1 (pos w) (c_head cs);
      Ok (set_data d2 w)
  end.

(** *** clearSnake and __repr__ *)

Definition clear_cell (cs : Chars) (cell : string) : string :=
  if in_chars cell cs then " " else cell.

Definition clearSnake (w : World) : World :=
  set_data (map (map (clear_cell (chars (snake w)))) (data w)) w.

(** [s * n] for a string [s]; a count below one gives the empty string. *)
Definition str_repeat (s : string) (n : Z) : string :=
  Nat.iter (Z.to_nat n) (String.append s) "".

Definition newline : string := String (Ascii.ascii_of_nat 10) "".

Definition render_row (row : list string) : string :=
  "W" ++ fold_right String.append "" row ++ "W" ++ newline.

Definition render (w : World) : string :=
  str_repeat "W" (width w + 2) ++ newline
  ++ fold_right String.append "" (map render_row (data w))
  ++ str_repeat "W" (width w + 2).

(** [__repr__] re-rasterizes the snake into [self.data] before it builds
    the text; the updated world is returned with the text. *)
Definition World_repr (w : World) : result (string * World) :=
  w' ← insertSnake (clearSnake w);
  Ok (render w', w').

(** *** placeFood *)

(** [random.choice(range(n))] on a raw draw [r]: some element of the range,
    or [IndexError] for an empty range. *)
Definition choice_range (n : Z) (r : nat) : result Z :=
  if n <=? 0 then Raise IndexError else Ok (Z.of_nat r mod n).

(** The sampling loop.  The random source is a list of raw draws, one pair
    per iteration; the remaining draws are returned. *)
Fixpoint placeFood (rnd : list (nat * nat)) (w : World)
    : result (World * list (nat * nat)) :=
  match rnd with
  | [] =>
      if (height w <=? 0) || (width w <=? 0) then Raise IndexError
      else OutOfDraws
  | (r1, r2) :: rnd' =>
      i ← choice_range (height w) r1;
      j ← choice_range (width w) r2;
      cell ← cell_at (data w) (i, j);
      if String.eqb cell " " then
        d ← set_cell (data w) (i, j) (foodchar w);
        Ok (set_data d w, rnd')
      else placeFood rnd' w
  end.

(** *** World.__init__ *)

(** [p] is the [pos] argument: [None], or a list of a row and a column.
    The message of the start-column check is built with [/] between two
    strings, so evaluating the [raise] statement raises [TypeError]. *)
Definition World_init (s : Snake) (p : option (Z * Z)) (h w : Z)
    (fc : string) (rnd : list (nat * nat)) : result (World * list (nat * nat)) :=
  let p := match p with Some p => p | None => (h / 2, w / 4) end in
  if snd p <? length s - 1 then Raise TypeError
  else
    let w0 := gen (mkWorld s p h w fc [[]]) in
    w1 ← insertSnake w0;
    placeFood rnd w1.

(** *** The game loop of run *)

(** [while self.onFood(): self.placeFood()] *)
Fixpoint refill (fuel : nat) (rnd : list (nat * nat)) (w : World)
    : result (World * list (nat * nat)) :=
  b ← onFood w;
  if b : bool then
    match fuel with
    | O => OutOfDraws
    | S fuel' => '(w', rnd') ← placeFood rnd w; refill fuel' rnd' w'
    end
  else Ok (w, rnd).

(** The body of [if self.onFood():]. *)
Definition eat (fuel : nat) (rnd : list (nat * nat)) (w : World) (food_eaten : Z)
    : result (World * Z * list (nat * nat)) :=
  let w1 := set_snake (grow 1 (snake w)) w in
  d ← set_cell (data w1) (pos w1) " ";
  '(w2, rnd') ← refill fuel rnd (set_data d w1);
  Ok (w2, food_eaten + 1, rnd').

(** One pass through the body of the [while] loop of [run]; the boolean
    tells whether the loop goes on (no [break]). *)
Definition run_iteration (fuel : nat) (rnd : list (nat * nat)) (w : World)
    (food_eaten : Z) : result (bool * (World * Z * list (nat * nat))) :=
  '(_, w1) ← World_repr w;
  w2 ← step w1;
  lost ← loss w2;
  if lost : bool then Ok (false, (w2, food_eaten, rnd))
  else
    f ← onFood w2;
    if f : bool then st ← eat fuel rnd w2 food_eaten; Ok (true, st)
    else Ok (true, (w2, food_eaten, rnd)).

(** [run], for at most [ticks] iterations; returns the final length and the
    food count that the loop prints. *)
Fixpoint run (ticks fuel : nat) (rnd : list (nat * nat)) (w : World)
    (food_eaten : Z) : result (Z * Z) :=
  lost ← loss w;
  if lost : bool then Ok (length (snake w), food_eaten)
  else
    match ticks with
    | O => OutOfDraws
    | S ticks' =>
        '(continue, (w', n, rnd')) ← run_iteration fuel rnd w food_eaten;
        if continue : bool then run ticks' fuel rnd' w' n
        else Ok (length (snake w'), n)
    end.

(** ** Derived notions used by the statements *)

(** The grid has [height] rows of [width] cells. *)
Definition grid_dims (h w : Z) (d : grid) : Prop :=
  Z.of_nat (List.length d) = Z.max 0 h /\
  Forall (fun row => Z.of_nat (List.length row) = Z.max 0 w) d.

Definition wf_grid (w : World) : Prop := grid_dims (height w) (width w) (data w).

(** A position inside an [h] by [w] grid. *)
Definition inside (h w : Z) (q : Z * Z) : Prop := 0 <= fst q < h /\ 0 <= snd q < w.

Definition in_grid (w : World) (p : Z * Z) : Prop := inside (height w) (width w) p.

(** Number of cells of the grid that hold the glyph [g]. *)
Definition count_glyph (g : string) (d : grid) : nat :=
  list_sum (map (fun row => List.length (List.filter (String.eqb g) row)) d).

Definition default_snake (len : Z) : Snake := mkSnake len default_chars default_segments.

(** [w.snake.turn(d)] and [w.snake.grow(n)] seen from the world that owns
    the snake. *)
Definition World_turn (direction : string) (w : World) : World :=
  set_snake (turn direction (snake w)) w.
Definition World_grow (n : Z) (w : World) : World :=
  set_snake (grow n (snake w)) w.

(** The constructor's invariant: every segment begins before the tail. *)
Definition begins_before_tail (s : Snake) : Prop :=
  Forall (fun seg : segment => fst seg < length s - 1) (segments s).

(** [k] calls of [step] in a row. *)
Fixpoint steps (k : nat) (w : World) : result World :=
  match k with
  | O => Ok w
  | S k' => w' ← step w; steps k' w'
  end.

(** *** The cells that insertSnake draws *)

(** The move for a heading, for headings that [matrix_moves] knows. *)
Definition move_of (direction : string) : Z * Z :=
  match matrix_moves direction with
  | Ok mv => mv
  | _ => (0, 0)
  end.

(** The pointer values of [n] consecutive pieces of one segment. *)
Fixpoint piece_cells (n : nat) (mv : Z * Z) (p : Z * Z) : list (Z * Z) :=
  match n with
  | O => []
  | S n' => p :: piece_cells n' mv (fst p - fst mv, snd p - snd mv)
  end.

(** Every piece the two loops of [insertSnake] draw, head first, with the
    heading of its segment. *)
Fixpoint snake_cells (segs : list segment) (len : Z) (p : Z * Z)
    : list ((Z * Z) * string) :=
  match segs with
  | [] => []
  | seg :: rest =>
      let n := Z.to_nat (seg_length len seg rest) in
      let mv := move_of (snd seg) in
      map (fun q => (q, snd seg)) (piece_cells n mv p)
      ++ snake_cells rest len
           (fst p - Z.of_nat n * fst mv, snd p - Z.of_nat n * snd mv)
  end.

Definition body_cells (w : World) : list ((Z * Z) * string) :=
  snake_cells (segments (snake w)) (length (snake w)) (pos w).

(** A sequence of cell assignments, in order. *)
Fixpoint write_all (ws : list ((Z * Z) * string)) (d : grid) : result grid :=
  match ws with
  | [] => Ok d
  | (q, x) :: ws' => d' ← set_cell d q x; write_all ws' d'
  end.

(** Number of grid cells that hold one of the snake's glyphs. *)
Definition count_snake (cs : Chars) (d : grid) : nat :=
  list_sum (map (fun row => List.length (List.filter (fun c => in_chars c cs) row)) d).


(** World states that the public operations produce from a construction. *)
Inductive reachable : World -> Prop :=
  | reach_init s p h w fc rnd w0 rnd' :
      World_init s p h w fc rnd = Ok (w0, rnd') -> reachable w0
  | reach_turn direction w : reachable w -> reachable (World_turn direction w)
  | reach_grow n w : reachable w -> reachable (World_grow n w)
  | reach_step w w' : reachable w -> step w = Ok w' -> reachable w'
  | reach_repr w w' out : reachable w -> World_repr w = Ok (out, w') -> reachable w'
  | reach_placeFood rnd w w' rnd' :
      reachable w -> placeFood rnd w = Ok (w', rnd') -> reachable w'.

(** ** Snakes as objects: the shared default argument *)

(** Python evaluates the default [segments=[[0, 'E']]] once, when the [def]
    statement runs, and every call without the argument receives that same
    list object.  Here segment lists live in a store and a snake object
    holds a reference to its list. *)
Module Shared.

Record SnakeObj : Type := mkSnakeObj {
  obj_length : Z;
  obj_chars : Chars;
  obj_segments : nat
}.

Record Store : Type := mkStore {
  lists : gmap nat (list segment);
  default_ref : nat
}.

(** The store once the class body has run: only the default list exists. *)
Definition class_defined : Store := mkStore {[ 0%nat := default_segments ]} 0%nat.

Definition deref (st : Store) (r : nat) : list segment :=
  default [] (lists st !! r).

(** A list literal evaluated by a caller is a new object. *)
Definition new_list (l : list segment) (st : Store) : nat * Store :=
  let r := fresh (dom (lists st)) in
  (r, mkStore (<[r := l]> (lists st)) (default_ref st)).

(** [Snake.__init__]: [self.segments = segments] stores the reference. *)
Definition Snake_init (len : Z) (segs : option nat) (cs : option Chars)
    (st : Store) : result SnakeObj :=
  let r := default (default_ref st) segs in
  _ ← check_segments len (deref st r);
  Ok (mkSnakeObj len (default default_chars cs) r).

(** [self.segments.insert(0, [-1, direction])] mutates the list in place. *)
Definition turn (direction : string) (o : SnakeObj) (st : Store) : Store :=
  mkStore (alter (turn_segments direction) (obj_segments o) (lists st))
          (default_ref st).

(** The snake as its holder sees it. *)
Definition view (st : Store) (o : SnakeObj) : Snake :=
  mkSnake (obj_length o) (obj_chars o) (deref st (obj_segments o)).

End Shared.

(** The number of snake cells on the grid that [__repr__] produces. *)
Definition rasterized_cells (w : World) : result nat :=
  '(_, w') ← World_repr w;
  Ok (count_snake (chars (snake w')) (data w')).

(** ** Sample states *)

(** A snake that has turned south one step ago, on a 4 x 6 board with one
    food cell in the corner. *)
Definition bent_world : World :=
  mkWorld (mkSnake 3 default_chars [(0, "S"); (1, "E")]) (2, 4) 4 6 "*"
    [ ["*"; " "; " "; " "; " "; " "];
      [" "; " "; " "; " "; " "; " "];
      [" "; " "; " "; " "; " "; " "];
      [" "; " "; " "; " "; " "; " "] ].

(** The default snake on an empty default board with a turn south queued. *)
Definition queued_world : World :=
  mkWorld (turn "S" (default_snake 3)) (8, 4) 16 16 "*" (gen_data 16 16).

(** The default snake with its head one row below the last row. *)
Definition past_edge_world : World :=
  mkWorld (default_snake 3) (16, 4) 16 16 "*" (gen_data 16 16).

(** ** Further operations *)

(** [str(n)] for a Python integer: decimal digits with a leading [-] for a
    negative number. *)
Definition str_of_int (n : Z) : string := NilZero.string_of_int (Z.to_int n).

(** [Snake.__repr__]: the f-string formats the length and then reads
    [self.segments[0][1]]. *)
Definition Snake_repr (s : Snake) : result string :=
  let len := str_of_int (length s) in
  s0 ← py_get (segments s) 0;
  Ok ("Snake of length " ++ len ++ " traveling " ++ snd s0).

(** The cell that one pair of raw draws selects in [placeFood]. *)
Definition draw_cell (w : World) (r : nat * nat) : Z * Z :=
  (Z.of_nat (fst r) mod height w, Z.of_nat (snd r) mod width w).

Definition hits_blank (w : World) (r : nat * nat) : Prop :=
  cell_at (data w) (draw_cell w r) = Ok " ".

(** [World.step] on a world whose snake object keeps its segment list in
    the store: the list is updated in place, the position belongs to the
    world. *)
Definition shared_step (st : Shared.Store) (o : Shared.SnakeObj) (p : Z * Z)
    : result (Shared.Store * (Z * Z)) :=
  segs ← step_segments (Shared.deref st (Shared.obj_segments o));
  s0 ← py_get segs 0;
  move ← matrix_moves (snd s0);
  Ok (Shared.mkStore (<[Shared.obj_segments o := segs]> (Shared.lists st))
                     (Shared.default_ref st),
      (fst p + fst move, snd p + snd move)).

(** 1 when the cell [x] holds the glyph [g], else 0. *)
Definition glyph_bit (g x : string) : nat := if String.eqb g x then 1%nat else 0%nat.

(** The states of a game in which the snake has never turned: one eastbound
    segment, every piece inside the grid, and the loop test not yet true. *)
Definition east_state (w : World) : Prop :=
  wf_grid w /\ segments (snake w) = [(0, "E")] /\ 1 <= length (snake w) /\
  in_grid w (pos w) /\ length (snake w) - 1 <= snd (pos w) /\
  in_chars_tail " " (chars (snake w)) = false /\ foodchar w <> " " /\
  loss w = Ok false.

(** A default snake heading for the food two columns from the east wall. *)
Definition east_world : World :=
  mkWorld (default_snake 3) (1, 2) 3 5 "*"
    [ [" "; " "; " "; " "; " "];
      ["x"; "-"; "X"; " "; "*"];
      [" "; " "; " "; " "; " "] ].

(** 1 when the cell [q] of the grid holds the glyph [food], else 0. *)
Definition food_bit (d : grid) (food : string) (q : Z * Z) : Z :=
  match cell_at d q with
  | Ok x => if String.eqb x food then 1 else 0
  | _ => 0
  end.

(** The number of food cells among the [m] cells of row [r] from column
    [c] on. *)
Fixpoint food_from (d : grid) (food : string) (r c : Z) (m : nat) : Z :=
  match m with
  | O => 0
  | S m' => food_bit d food (r, c) + food_from d food r (c + 1) m'
  end.

(** The number of food cells in the head's row between the head and the
    east wall. *)
Definition food_ahead (w : World) : Z :=
  food_from (data w) (foodchar w) (fst (pos w)) (snd (pos w) + 1)
    (Z.to_nat (width w - snd (pos w) - 1)).

(** The store after a default-constructed Snake(3) has turned north and its
    world has stepped twice: the default list holds [[0, 'N'], [2, 'E']]. *)
Definition stale_default_store : Shared.Store :=
  Shared.mkStore {[ 0%nat := [(0, "N"); (2, "E")] ]} 0%nat.

(** The character of the string ['\n']. *)
Definition newline_char : Ascii.ascii := Ascii.ascii_of_nat 10.

(** [s.split(sep)] for a one-character separator: the pieces of [s] between
    the occurrences of [sep], in order; a string without [sep] is its own
    single piece. *)
Fixpoint split_on (sep : Ascii.ascii) (s : string) : list string :=
  match s with
  | EmptyString => [""]
  | String c rest =>
      if Ascii.eqb c sep then "" :: split_on sep rest
      else match split_on sep rest with
           | [] => [String c ""]
           | piece :: pieces => String c piece :: pieces
           end
  end.

(** [sep in s] for a one-character separator. *)
Fixpoint has_char (sep : Ascii.ascii) (s : string) : bool :=
  match s with
  | EmptyString => false
  | String c rest => Ascii.eqb c sep || has_char sep rest
  end.

(** The line that [__repr__] writes for one row of the grid, without the
    newline that ends it. *)
Definition frame_row (row : list string) : string :=
  "W" ++ fold_right String.append "" row ++ "W".

(** The lines that [__repr__] writes: the top border, one line per row of
    the grid between two wall characters, and the bottom border. *)
Definition frame_lines (w : World) : list string :=
  str_repeat "W" (width w + 2)
  :: (map frame_row (data w) ++ [str_repeat "W" (width w + 2)])%list.

(** * Basic facts *)

Section ResultFacts.
Context {A B : Type}.

Lemma bind_Ok (r : result A) (k : A -> result B) (b : B) :
  (x ← r; k x) = Ok b -> exists a, r = Ok a /\ k a = Ok b.
Proof. destruct r as [a| |]; simpl; intros H; try discriminate. eauto. Qed.

Lemma Ok_inj (a a' : A) : Ok a = Ok a' -> a = a'.
Proof. congruence. Qed.
End ResultFacts.

Section PyIndexing.
Context {A : Type}.
Implicit Types (l : list A) (i : Z).

Lemma py_norm_nonneg n i :
  0 <= i -> py_norm n i = if i <? Z.of_nat n then Some (Z.to_nat i) else None.
Proof.
  intros Hi. unfold py_norm.
  destruct (Z.leb_spec 0 i); [|lia]. simpl.
  destruct (Z.ltb_spec i (Z.of_nat n)); [done|].
  destruct (Z.ltb_spec i 0); [lia|]. by rewrite andb_false_r.
Qed.

Lemma py_get_nonneg l i :
  0 <= i ->
  py_get l i = match l !! Z.to_nat i with Some x => Ok x | None => Raise IndexError end.
Proof.
  intros Hi. unfold py_get. rewrite py_norm_nonneg by done.
  destruct (Z.ltb_spec i (Z.of_nat (List.length l))); [done|].
  rewrite lookup_ge_None_2; [done|lia].
Qed.

Lemma py_get_head x l : py_get (x :: l) 0 = Ok x.
Proof. by rewrite py_get_nonneg. Qed.

Lemma py_get_len l : py_get l (Z.of_nat (List.length l)) = Raise IndexError.
Proof.
  rewrite py_get_nonneg by lia. rewrite Nat2Z.id.
  by rewrite lookup_ge_None_2.
Qed.


Lemma py_set_nonneg l i x :
  0 <= i ->
  py_set l i x =
    if i <? Z.of_nat (List.length l) then Ok (<[Z.to_nat i := x]> l)
    else Raise IndexError.
Proof.
  intros Hi. unfold py_set. rewrite py_norm_nonneg by done.
  by destruct (i <? Z.of_nat (List.length l)).
Qed.
End PyIndexing.

(** ** Reading and writing grid cells *)

Section GridFacts.
Variables (h w : Z) (d : grid).
Hypothesis Hdims : grid_dims h w d.

Lemma grid_row (r : Z) :
  0 <= r < h ->
  exists row, d !! Z.to_nat r = Some row /\ Z.of_nat (List.length row) = Z.max 0 w.
Proof.
  intros Hr. destruct Hdims as [Hlen Hrows].
  destruct (lookup_lt_is_Some_2 d (Z.to_nat r)) as [row Hrow]; [lia|].
  exists row. split; [done|].
  by apply (proj1 (Forall_lookup _ _) Hrows _ _ Hrow).
Qed.

Lemma cell_at_in_grid (p : Z * Z) :
  0 <= fst p < h -> 0 <= snd p < w ->
  exists x, cell_at d p = Ok x /\
    (d !! Z.to_nat (fst p)) ≫= (fun row => row !! Z.to_nat (snd p)) = Some x.
Proof.
  intros Hr Hc. destruct (grid_row _ Hr) as (row & Hrow & Hlen).
  destruct (lookup_lt_is_Some_2 row (Z.to_nat (snd p))) as [x Hx]; [lia|].
  exists x. unfold cell_at. rewrite py_get_nonneg by lia. rewrite Hrow. rsimpl.
  rewrite py_get_nonneg by lia. by rewrite Hx.
Qed.

Lemma set_cell_in_grid (p : Z * Z) (x : string) :
  0 <= fst p < h -> 0 <= snd p < w ->
  exists d', set_cell d p x = Ok d' /\ grid_dims h w d' /\
    cell_at d' p = Ok x /\
    (forall q, 0 <= fst q -> 0 <= snd q -> q <> p -> cell_at d' q = cell_at d q).
Proof.
  intros Hr Hc. destruct (grid_row _ Hr) as (row & Hrow & Hlen).
  pose proof Hdims as [Hdlen Hrows].
  exists (<[Z.to_nat (fst p) := <[Z.to_nat (snd p) := x]> row]> d).
  split; [|split; [|split]].
  - unfold set_cell. rewrite py_get_nonneg by lia. rewrite Hrow. rsimpl.
    rewrite py_set_nonneg by lia.
    destruct (Z.ltb_spec (snd p) (Z.of_nat (List.length row))); [|lia]. rsimpl.
    rewrite py_set_nonneg by lia.
    destruct (Z.ltb_spec (fst p) (Z.of_nat (List.length d))); [done|lia].
  - split; [by rewrite length_insert|].
    apply Forall_insert; [done|]. by rewrite length_insert.
  - unfold cell_at. rewrite py_get_nonneg by lia.
    rewrite list_lookup_insert_eq by lia. rsimpl.
    rewrite py_get_nonneg by lia.
    rewrite list_lookup_insert_eq by lia. done.
  - intros [qr qc] Hqr Hqc Hne. unfold cell_at. simpl in *.
    rewrite !py_get_nonneg by lia.
    destruct (decide (Z.to_nat qr = Z.to_nat (fst p))) as [Heq|Hneq].
    + rewrite Heq, list_lookup_insert_eq by lia. rewrite Hrow. rsimpl.
      rewrite !py_get_nonneg by lia.
      rewrite list_lookup_insert_ne; [done|].
      intros Hc'. apply Hne. destruct p as [pr pc]. simpl in *.
      f_equal; lia.
    + by rewrite list_lookup_insert_ne.
Qed.
End GridFacts.

Lemma gen_data_dims (h w : Z) : grid_dims h w (gen_data h w).
Proof.
  unfold grid_dims, gen_data. split.
  - rewrite length_replicate. lia.
  - apply Forall_replicate. rewrite length_replicate. lia.
Qed.

Lemma gen_data_blank (h w : Z) (p : Z * Z) :
  0 <= fst p < h -> 0 <= snd p < w -> cell_at (gen_data h w) p = Ok " ".
Proof.
  intros Hr Hc. unfold cell_at, gen_data.
  rewrite py_get_nonneg by lia.
  rewrite lookup_replicate_2 by lia. rsimpl.
  rewrite py_get_nonneg by lia.
  by rewrite lookup_replicate_2 by lia.
Qed.

(** * World.step *)

Lemma Snake_init_default (len : Z) :
  2 <= len -> Snake_init len default_segments None = Ok (default_snake len).
Proof.
  intros Hlen. unfold Snake_init. simpl.
  destruct (Z.geb_spec 0 (len - 1)); [lia|done].
Qed.

Lemma matrix_moves_valid (direction : string) :
  direction ∈ ["N"; "S"; "E"; "W"] ->
  exists mv, matrix_moves direction = Ok mv /\
    (direction = "N" -> mv = (-1, 0)) /\ (direction = "S" -> mv = (1, 0)) /\
    (direction = "E" -> mv = (0, 1)) /\ (direction = "W" -> mv = (0, -1)).
Proof.
  intros Hd. repeat (apply elem_of_cons in Hd as [->|Hd]);
    [..|by apply elem_of_nil in Hd];
    (eexists; split; [reflexivity|]; repeat split; intros; (done || discriminate)).
Qed.

(** C1, as amended: when the segment list has a front segment with a
    heading among N, S, E, W, and has a second segment whenever the front
    distance is -1, [step] returns; a front distance of -1 adds 1 to the
    distances of exactly the two frontmost segments, any other front
    distance adds 1 to every segment except index 0; the head then moves one
    cell by North=(-1,0), South=(+1,0), East=(0,+1), West=(0,-1); nothing
    else changes, and no test of the grid bounds or of the body is made. *)
Theorem step_two_case_rule (w : World) (s0 : segment) (rest : list segment) :
  segments (snake w) = s0 :: rest ->
  (fst s0 = -1 -> rest <> []) ->
  snd s0 ∈ ["N"; "S"; "E"; "W"] ->
  exists w', step w = Ok w' /\
    (fst s0 = -1 -> forall i : nat,
       segments (snake w') !! i =
         if decide (i < 2)%nat
         then (fun seg : segment => (fst seg + 1, snd seg)) <$> segments (snake w) !! i
         else segments (snake w) !! i) /\
    (fst s0 <> -1 -> forall i : nat,
       segments (snake w') !! i =
         if decide (i = 0)%nat then segments (snake w) !! i
         else (fun seg : segment => (fst seg + 1, snd seg)) <$> segments (snake w) !! i) /\
    (snd s0 = "N" -> pos w' = (fst (pos w) - 1, snd (pos w))) /\
    (snd s0 = "S" -> pos w' = (fst (pos w) + 1, snd (pos w))) /\
    (snd s0 = "E" -> pos w' = (fst (pos w), snd (pos w) + 1)) /\
    (snd s0 = "W" -> pos w' = (fst (pos w), snd (pos w) - 1)) /\
    length (snake w') = length (snake w) /\ chars (snake w') = chars (snake w) /\
    height w' = height w /\ width w' = width w /\
    foodchar w' = foodchar w /\ data w' = data w.
Proof.
  intros Hsegs Hsecond Hdir.
  destruct (matrix_moves_valid _ Hdir) as (mv & Hmv & HN & HS & HE & HW).
  unfold step. rewrite Hsegs. simpl.
  destruct (Z.eqb_spec (fst s0) (-1)) as [Hq|Hq].
  - destruct rest as [|s1 rest']; [by destruct Hsecond|]. simpl.
    rewrite Hmv. simpl. eexists; split; [reflexivity|]. simpl.
    split; [|split; [intros; lia|]].
    + intros _ [|[|i]]; simpl; try done.
    + repeat split; intros Hd;
        [rewrite (HN Hd)|rewrite (HS Hd)|rewrite (HE Hd)|rewrite (HW Hd)];
        simpl; f_equal; lia.
  - simpl. rewrite Hmv. simpl. eexists; split; [reflexivity|]. simpl.
    split; [intros; lia|split].
    + intros _ [|i]; simpl; [done|]. by rewrite list_lookup_fmap.
    + repeat split; intros Hd;
        [rewrite (HN Hd)|rewrite (HS Hd)|rewrite (HE Hd)|rewrite (HW Hd)];
        simpl; f_equal; lia.
Qed.

Lemma step_two_case_rule_witness :
  segments (snake queued_world) = (-1, "S") :: [(0, "E")] /\
  exists w', step queued_world = Ok w' /\ pos w' = (9, 4) /\
    segments (snake w') = [(0, "S"); (1, "E")].
Proof.
  split; [reflexivity|].
  destruct (step_two_case_rule queued_world (-1, "S") [(0, "E")] eq_refl)
    as (w' & Hstep & Hq & _ & _ & HS & _).
  - discriminate.
  - apply list_elem_of_further, list_elem_of_here.
  - exists w'. split; [exact Hstep|]. split; [exact (HS eq_refl)|].
    apply list_eq. intros i. rewrite (Hq eq_refl i).
    destruct i as [|[|i]]; reflexivity.
Defined.

(** C1, as stated, fails: a snake built by the constructor with the single
    queued segment [[-1, 'E']] gives a world on which [step] raises
    [IndexError] when [range(2)] reaches the missing second segment. *)
Lemma step_raises_on_lone_queued_segment :
  exists s w rnd',
    Snake_init 2 [(-1, "E")] None = Ok s /\
    World_init s None 16 16 "*" [(0%nat, 0%nat)] = Ok (w, rnd') /\
    step w = Raise IndexError.
Proof. do 3 eexists. repeat split; vm_compute; reflexivity. Qed.

(** ** Straight runs *)

(** [k] steps without a queued turn leave the head segment alone, add [k]
    to every other distance and move the head [k] cells. *)
Lemma steps_straight (k : nat) (w : World) (s0 : segment) (rest : list segment)
    (mv : Z * Z) :
  segments (snake w) = s0 :: rest ->
  fst s0 <> -1 ->
  matrix_moves (snd s0) = Ok mv ->
  steps k w =
    Ok (mkWorld
          (mkSnake (length (snake w)) (chars (snake w))
             (s0 :: map (fun seg : segment => (fst seg + Z.of_nat k, snd seg)) rest))
          (fst (pos w) + Z.of_nat k * fst mv, snd (pos w) + Z.of_nat k * snd mv)
          (height w) (width w) (foodchar w) (data w)).
Proof.
  revert w rest. induction k as [|k IH]; intros w rest Hsegs Hq Hmv.
  - simpl. destruct w as [[len cs segs] [r c] h wd fc d]. simpl in *. subst segs.
    do 2 f_equal.
    + f_equal. f_equal. rewrite <- (map_id rest) at 1. apply map_ext.
      intros [a b]. simpl. f_equal. lia.
    + f_equal; lia.
  - cbn [steps]. unfold step at 1. rewrite Hsegs. cbn [step_segments].
    destruct (Z.eqb_spec (fst s0) (-1)) as [|_]; [done|]. rsimpl.
    rewrite py_get_head. rsimpl. rewrite Hmv. rsimpl.
    rewrite (IH _ (map bump rest)); [|done..]. simpl.
    do 2 f_equal.
    + f_equal. f_equal. rewrite map_map. apply map_ext.
      intros [a b]. unfold bump. simpl. f_equal. lia.
    + f_equal; lia.
Qed.

(** After a turn, the old head segment drifts past the tail: the
    constructor's invariant cannot survive [step]. *)
Lemma step_outruns_tail (w : World) (s0 s1 : segment) (rest : list segment) :
  segments (snake w) = s0 :: s1 :: rest ->
  fst s0 <> -1 ->
  snd s0 ∈ ["N"; "S"; "E"; "W"] ->
  exists (k : nat) (w' : World),
    steps k w = Ok w' /\ length (snake w') = length (snake w) /\
    ~ begins_before_tail (snake w').
Proof.
  intros Hsegs Hq Hdir.
  destruct (matrix_moves_valid _ Hdir) as (mv & Hmv & _).
  exists (Z.to_nat (length (snake w) - 1 - fst s1)). eexists.
  split; [by apply (steps_straight _ w s0 (s1 :: rest) mv)|].
  split; [done|].
  unfold begins_before_tail. simpl. intros Hinv.
  apply Forall_cons in Hinv as [_ Hinv]. apply Forall_cons in Hinv as [Hs1 _].
  simpl in Hs1. lia.
Qed.

(** C2: the run Snake(3); World(s); turn('S'); step(); step() starts from a
    snake that satisfies the constructor's invariant and ends with the
    segment [[2, 'E']] while the length is still 3, so the distance 2 is not
    below length - 1 = 2. *)
Theorem invariant_broken_after_turn_and_two_steps :
  exists s w0 rnd' w2,
    Snake_init 3 default_segments None = Ok s /\
    World_init s None 16 16 "*" [(0%nat, 0%nat)] = Ok (w0, rnd') /\
    begins_before_tail (snake w0) /\
    steps 2 (World_turn "S" w0) = Ok w2 /\
    segments (snake w2) = [(0, "S"); (2, "E")] /\
    length (snake w2) = 3 /\
    ~ begins_before_tail (snake w2).
Proof.
  do 4 eexists.
  split; [vm_compute; reflexivity|].
  split; [vm_compute; reflexivity|].
  split; [repeat constructor|].
  split; [vm_compute; reflexivity|].
  split; [reflexivity|]. split; [reflexivity|].
  unfold begins_before_tail. simpl. intros Hinv.
  apply Forall_cons in Hinv as [_ Hinv]. apply Forall_cons in Hinv as [Hs1 _].
  simpl in Hs1. lia.
Qed.

(** * placeFood *)

Lemma choice_range_Ok (n : Z) (r : nat) (i : Z) :
  choice_range n r = Ok i -> 0 <= i < n.
Proof.
  unfold choice_range. destruct (Z.leb_spec n 0); [discriminate|].
  intros [= <-]. apply Z.mod_pos_bound. lia.
Qed.

(** A returning [placeFood] has turned one blank cell of the grid into
    food and changed nothing else. *)
Lemma placeFood_Ok (rnd rnd' : list (nat * nat)) (w w' : World) :
  placeFood rnd w = Ok (w', rnd') ->
  exists p, in_grid w p /\ cell_at (data w) p = Ok " " /\
    set_cell (data w) p (foodchar w) = Ok (data w') /\
    w' = set_data (data w') w /\ (List.length rnd' < List.length rnd)%nat.
Proof.
  revert rnd'. induction rnd as [|[r1 r2] rnd IH]; intros rnd'; cbn [placeFood].
  - by destruct (_ || _).
  - intros H.
    apply bind_Ok in H as (i & Hi & H). apply bind_Ok in H as (j & Hj & H).
    apply bind_Ok in H as (cell & Hcell & H).
    apply choice_range_Ok in Hi, Hj.
    destruct (String.eqb_spec cell " ") as [->|Hne].
    + apply bind_Ok in H as (d & Hd & [= <- <-]).
      exists (i, j). split; [by split|]. do 3 (split; [done|]). simpl. lia.
    + destruct (IH _ H) as (p & ? & ? & ? & ? & ?).
      exists p. do 4 (split; [done|]). simpl. lia.
Qed.

Lemma placeFood_no_raise (rnd : list (nat * nat)) (w : World) (e : exn) :
  wf_grid w -> 0 < height w -> 0 < width w -> placeFood rnd w <> Raise e.
Proof.
  intros Hwf Hh Hw. induction rnd as [|[r1 r2] rnd IH]; cbn [placeFood].
  - destruct (Z.leb_spec (height w) 0); [lia|].
    destruct (Z.leb_spec (width w) 0); [lia|]. done.
  - unfold choice_range.
    destruct (Z.leb_spec (height w) 0); [lia|].
    destruct (Z.leb_spec (width w) 0); [lia|]. rsimpl.
    pose proof (Z.mod_pos_bound (Z.of_nat r1) (height w) Hh).
    pose proof (Z.mod_pos_bound (Z.of_nat r2) (width w) Hw).
    destruct (cell_at_in_grid _ _ _ Hwf (Z.of_nat r1 mod height w, Z.of_nat r2 mod width w))
      as (x & Hx & _); [done..|].
    rewrite Hx. rsimpl. destruct (String.eqb x " "); [|done].
    destruct (set_cell_in_grid _ _ _ Hwf
                (Z.of_nat r1 mod height w, Z.of_nat r2 mod width w) (foodchar w))
      as (d' & Hd' & _); [done..|].
    rewrite Hd'. done.
Qed.

(** Cells that are not blank survive [placeFood], and so does the shape of
    the grid. *)
Lemma placeFood_keeps (rnd rnd' : list (nat * nat)) (w w' : World) :
  wf_grid w -> placeFood rnd w = Ok (w', rnd') ->
  wf_grid w' /\ snake w' = snake w /\ pos w' = pos w /\
  height w' = height w /\ width w' = width w /\ foodchar w' = foodchar w /\
  forall q, 0 <= fst q -> 0 <= snd q -> cell_at (data w) q <> Ok " " ->
    cell_at (data w') q = cell_at (data w) q.
Proof.
  intros Hwf H. apply placeFood_Ok in H as (p & [Hr Hc] & Hblank & Hset & Hw' & _).
  destruct (set_cell_in_grid _ _ _ Hwf p (foodchar w) Hr Hc)
    as (d' & Hd' & Hdims & _ & Hother).
  rewrite Hset in Hd'. injection Hd' as <-.
  rewrite Hw'. simpl. do 6 (split; [done|]).
  intros q Hq1 Hq2 Hq. apply Hother; try done. intros ->. done.
Qed.

(** * The default scenario *)

(** C6: Snake(3) with default segments in the default 16 x 16 world.
    Whatever the random draws, construction does not raise, and it returns
    for a draw that hits a blank cell.  In every world it returns the head is
    at (8,4) with the head glyph, (8,3) holds the horizontal glyph and (8,2)
    the tail glyph, the body walk having drawn (8,3) and (8,2) with the
    horizontal glyph; one step moves the head to (8,5), and turn('S') followed
    by a step moves it to (9,5). *)
Theorem default_scenario (rnd : list (nat * nat)) :
  exists s, Snake_init 3 default_segments None = Ok s /\
    returns (World_init s None 16 16 "*" [(0%nat, 0%nat)]) /\
    (exists st,
        draw_segments (segments s) (length s) 16 16 (chars s)
          (mkCursor (gen_data 16 16) (8, 4) None) = Ok st /\
        cell_at (cur_data st) (8, 3) = Ok (c_horiz (chars s)) /\
        cell_at (cur_data st) (8, 2) = Ok (c_horiz (chars s))) /\
    match World_init s None 16 16 "*" rnd with
    | Raise _ => False
    | OutOfDraws => True
    | Ok (w, _) =>
        pos w = (8, 4) /\
        cell_at (data w) (8, 4) = Ok (c_head (chars s)) /\
        cell_at (data w) (8, 3) = Ok (c_horiz (chars s)) /\
        cell_at (data w) (8, 2) = Ok (c_tail (chars s)) /\
        exists w1, step w = Ok w1 /\ pos w1 = (8, 5) /\
          exists w2, step (World_turn "S" w1) = Ok w2 /\ pos w2 = (9, 5)
    end.
Proof.
  exists (default_snake 3). split; [reflexivity|].
  split; [eexists; vm_compute; reflexivity|].
  split; [eexists; split; [vm_compute; reflexivity|split; reflexivity]|].
  unfold World_init. cbn [snd length default_snake Z.sub].
  change (16 `div` 4 <? 3 - 1) with false. cbv iota.
  destruct (insertSnake (gen (mkWorld (default_snake 3) (16 `div` 2, 16 `div` 4) 16 16 "*" [[]])))
    as [w0| |] eqn:Hw0; vm_compute in Hw0; try discriminate.
  injection Hw0 as <-. rsimpl.
  match goal with |- context [placeFood rnd ?w] => set (w0 := w) end.
  assert (Hwf : wf_grid w0).
  { split; [reflexivity|]. repeat constructor. }
  destruct (placeFood rnd w0) as [[w rnd']|e|] eqn:Hpf; [|by eapply placeFood_no_raise|done].
  apply placeFood_keeps in Hpf as (_ & Hsn & Hpos & _ & _ & _ & Hcells); [|done].
  split; [by rewrite Hpos|].
  rewrite !Hcells by (simpl; (lia || discriminate)).
  do 3 (split; [reflexivity|]).
  unfold step, World_turn, set_snake, turn. rewrite Hsn, Hpos. simpl.
  eexists; split; [reflexivity|]. split; [reflexivity|]. simpl.
  eexists; split; [reflexivity|]. reflexivity.
Qed.

(** * Rasterization *)

Lemma py_get_Ok {A} (l : list A) (i : Z) (x : A) :
  py_get l i = Ok x -> exists k, l !! k = Some x.
Proof.
  unfold py_get. destruct (py_norm _ _) as [k|]; [|discriminate].
  destruct (l !! k) eqn:Hk; [|discriminate]. intros [= <-]. eauto.
Qed.

Lemma py_set_Ok {A} (l l' : list A) (i : Z) (x : A) :
  py_set l i x = Ok l' -> exists k, l' = <[k := x]> l.
Proof.
  unfold py_set. destruct (py_norm _ _) as [k|]; [|discriminate].
  intros [= <-]. eauto.
Qed.

(** Any assignment that succeeds keeps the shape of the grid. *)
Lemma set_cell_dims (h w : Z) (d d' : grid) (p : Z * Z) (x : string) :
  grid_dims h w d -> set_cell d p x = Ok d' -> grid_dims h w d'.
Proof.
  intros [Hlen Hrows] H. unfold set_cell in H.
  apply bind_Ok in H as (row & Hrow & H). apply bind_Ok in H as (row' & Hrow' & H).
  apply py_get_Ok in Hrow as (k & Hk). apply py_set_Ok in Hrow' as (k1 & ->).
  apply py_set_Ok in H as (k2 & ->).
  split; [by rewrite length_insert|].
  apply Forall_insert; [done|]. rewrite length_insert.
  by apply (proj1 (Forall_lookup _ _) Hrows _ _ Hk).
Qed.

Lemma last_piece_cells (n : nat) (mv p : Z * Z) :
  last (piece_cells (S n) mv p)
  = Some (fst p - Z.of_nat n * fst mv, snd p - Z.of_nat n * snd mv).
Proof.
  revert p. induction n as [|n IH]; intros [r c].
  - simpl. do 2 f_equal; lia.
  - change (piece_cells (S (S n)) mv (r, c))
      with ((r, c) :: piece_cells (S n) mv (r - fst mv, c - snd mv)).
    rewrite last_cons, IH. simpl. do 2 f_equal; lia.
Qed.

Lemma write_all_app (a b : list ((Z * Z) * string)) (d : grid) :
  write_all (a ++ b) d = (d' ← write_all a d; write_all b d').
Proof.
  revert d. induction a as [|[q x] a IH]; intros d; [done|].
  simpl. destruct (set_cell d q x); rsimpl; [apply IH|done..].
Qed.

Section Draw.
Variables (h w : Z).

Lemma inside_in_range (q : Z * Z) :
  inside h w q -> negb (in_range (fst q) h) || negb (in_range (snd q) w) = false.
Proof.
  intros [[] []]. unfold in_range.
  destruct (Z.leb_spec 0 (fst q)); [|lia]. destruct (Z.ltb_spec (fst q) h); [|lia].
  destruct (Z.leb_spec 0 (snd q)); [|lia]. destruct (Z.ltb_spec (snd q) w); [|lia].
  done.
Qed.

(** The inner loop draws the pieces of [piece_cells], one assignment each. *)
Lemma draw_pieces_spec (n : nat) (direction char : string) (mv : Z * Z) :
  matrix_moves direction = Ok mv ->
  forall (d : grid) (p : Z * Z) (mv0 : option (Z * Z)),
    grid_dims h w d ->
    Forall (inside h w) (piece_cells n mv p) ->
    exists d',
      draw_pieces n h w direction char (mkCursor d p mv0)
      = Ok (mkCursor d'
              (fst p - Z.of_nat n * fst mv, snd p - Z.of_nat n * snd mv)
              (match n with O => mv0 | S _ => Some mv end)) /\
      grid_dims h w d' /\
      write_all (map (fun q => (q, char)) (piece_cells n mv p)) d = Ok d'.
Proof.
  intros Hmv. induction n as [|n IH]; intros d p mv0 Hdims Hin.
  - exists d. simpl. split; [|done]. destruct p as [r c]. simpl.
    do 2 f_equal. f_equal; lia.
  - cbn [piece_cells] in Hin. apply Forall_cons in Hin as [Hp Hin].
    cbn [draw_pieces cur_ptr cur_data]. rewrite (inside_in_range _ Hp).
    destruct Hp as [Hr Hc].
    destruct (set_cell_in_grid _ _ _ Hdims p char Hr Hc) as (d1 & Hd1 & Hdims1 & _).
    rewrite Hd1. rsimpl. rewrite Hmv. rsimpl.
    destruct (IH d1 _ (Some mv) Hdims1 Hin) as (d' & Hdraw & Hdims' & Hw).
    exists d'. rewrite Hdraw. split; [|split; [done|]].
    + simpl. do 2 f_equal; [f_equal; lia|by destruct n].
    + cbn [piece_cells map write_all]. rewrite Hd1. rsimpl. exact Hw.
Qed.

(** The outer loop draws [snake_cells]; afterwards the last drawn cell is
    one move ahead of the pointer. *)
Lemma draw_segments_spec (len : Z) (cs : Chars) (segs : list segment) :
  Forall (fun seg : segment => snd seg ∈ ["N"; "S"; "E"; "W"]) segs ->
  forall (d : grid) (p : Z * Z) (mv0 : option (Z * Z)),
    grid_dims h w d ->
    Forall (fun c => inside h w (fst c)) (snake_cells segs len p) ->
    exists d' p' mv',
      draw_segments segs len h w cs (mkCursor d p mv0) = Ok (mkCursor d' p' mv') /\
      grid_dims h w d' /\
      write_all (map (fun c => (fst c, seg_char cs (snd c))) (snake_cells segs len p)) d
      = Ok d' /\
      match last (snake_cells segs len p) with
      | None => p' = p /\ mv' = mv0
      | Some c => exists mv, mv' = Some mv /\ fst c = (fst p' + fst mv, snd p' + snd mv)
      end.
Proof.
  induction segs as [|seg rest IH]; intros Hdirs d p mv0 Hdims Hin.
  - exists d, p, mv0. done.
  - apply Forall_cons in Hdirs as [Hdir Hdirs].
    destruct (matrix_moves_valid _ Hdir) as (mv & Hmv & _).
    cbn [snake_cells] in *. unfold move_of in *. rewrite Hmv in *.
    set (n := Z.to_nat (seg_length len seg rest)) in *.
    apply Forall_app in Hin as [Hin1 Hin2].
    rewrite Forall_fmap in Hin1.
    destruct (draw_pieces_spec n (snd seg) (seg_char cs (snd seg)) mv Hmv d p mv0 Hdims)
      as (d1 & Hdraw1 & Hdims1 & Hw1).
    { eapply Forall_impl; [exact Hin1|]. done. }
    destruct (IH Hdirs d1 _ (match n with O => mv0 | S _ => Some mv end) Hdims1 Hin2)
      as (d' & p' & mv' & Hdraw & Hdims' & Hw & Hlast).
    exists d', p', mv'. cbn [draw_segments]. fold n. rewrite Hdraw1. rsimpl.
    split; [done|]. split; [done|]. split.
    + rewrite map_app, write_all_app, map_map. simpl. rewrite Hw1. rsimpl. exact Hw.
    + destruct (snake_cells rest len _) as [|c cells] eqn:Hcells using rev_ind.
      * rewrite app_nil_r. simpl in Hlast. destruct Hlast as [-> ->].
        destruct n as [|n'].
        -- simpl. split; [|done]. destruct p; simpl; f_equal; lia.
        -- rewrite fmap_last, last_piece_cells. simpl.
           exists mv. split; [done|].
           f_equal; lia.
      * rewrite app_assoc, last_snoc. by rewrite last_snoc in Hlast.
Qed.
End Draw.

(** Assignments to pairwise distinct cells inside the grid: every written
    cell holds its glyph, every other cell is as before. *)
Lemma write_all_cells (h w : Z) (ws : list ((Z * Z) * string)) :
  forall d d' : grid,
    grid_dims h w d ->
    Forall (fun c => inside h w (fst c)) ws ->
    NoDup (map fst ws) ->
    write_all ws d = Ok d' ->
    (forall q x, (q, x) ∈ ws -> cell_at d' q = Ok x) /\
    (forall q, 0 <= fst q -> 0 <= snd q -> q ∉ map fst ws -> cell_at d' q = cell_at d q).
Proof.
  induction ws as [|[q0 x0] ws IH]; intros d d' Hdims Hin Hnd Hw.
  - injection Hw as <-. split; [|done]. intros q x Hq. by apply elem_of_nil in Hq.
  - apply Forall_cons in Hin as [[Hr Hc] Hin]. simpl in Hr, Hc.
    simpl in Hnd. apply NoDup_cons in Hnd as [Hq0 Hnd].
    cbn [write_all] in Hw. apply bind_Ok in Hw as (d1 & Hd1 & Hw).
    destruct (set_cell_in_grid _ _ _ Hdims q0 x0 Hr Hc) as (d1' & Hd1' & Hdims1 & Hsame & Hother).
    rewrite Hd1 in Hd1'. injection Hd1' as <-.
    destruct (IH d1 d' Hdims1 Hin Hnd Hw) as [Hwritten Hkept]. split.
    + intros q x Hq. apply elem_of_cons in Hq as [[= -> ->]|Hq].
      * rewrite Hkept; [done|lia..|done].
      * by apply Hwritten.
    + intros q Hq1 Hq2 Hq. simpl in Hq. apply not_elem_of_cons in Hq as [Hne Hq].
      rewrite Hkept by done. by apply Hother.
Qed.

(** The first piece is drawn at the start pointer. *)
Lemma snake_cells_first (segs : list segment) (len : Z) (p : Z * Z) (c : (Z * Z) * string)
    (cells : list ((Z * Z) * string)) :
  snake_cells segs len p = c :: cells -> fst c = p.
Proof.
  revert p. induction segs as [|seg rest IH]; intros p; [done|].
  cbn [snake_cells]. destruct (Z.to_nat (seg_length len seg rest)) as [|n].
  - simpl. intros H. apply IH in H. rewrite H. destruct p; simpl; f_equal; lia.
  - simpl. by intros [= <- _].
Qed.


Lemma NoDup_fmap_eq {A B} (f : A -> B) (l : list A) (x y : A) :
  NoDup (map f l) -> x ∈ l -> y ∈ l -> f x = f y -> x = y.
Proof.
  induction l as [|a l IH]; intros Hnd Hx Hy Hf; [by apply elem_of_nil in Hx|].
  simpl in Hnd. apply NoDup_cons in Hnd as [Ha Hnd].
  apply elem_of_cons in Hx as [->|Hx]; apply elem_of_cons in Hy as [->|Hy]; try done.
  - destruct Ha. rewrite Hf. by apply (list_elem_of_fmap_2 f).
  - destruct Ha. rewrite <- Hf. by apply (list_elem_of_fmap_2 f).
  - by apply IH.
Qed.

(** What [insertSnake] leaves in the grid when the pieces lie inside the
    grid on pairwise distinct cells. *)
Lemma insertSnake_cells (w : World) :
  wf_grid w ->
  Forall (fun seg : segment => snd seg ∈ ["N"; "S"; "E"; "W"]) (segments (snake w)) ->
  Forall (fun c => in_grid w (fst c)) (body_cells w) ->
  NoDup (map fst (body_cells w)) ->
  body_cells w <> [] ->
  exists d', insertSnake w = Ok (set_data d' w) /\
    grid_dims (height w) (width w) d' /\
    in_grid w (pos w) /\
    cell_at d' (pos w) = Ok (c_head (chars (snake w))) /\
    (forall c, last (body_cells w) = Some c -> fst c <> pos w ->
       cell_at d' (fst c) = Ok (c_tail (chars (snake w)))) /\
    (forall c, c ∈ body_cells w -> fst c <> pos w -> last (body_cells w) <> Some c ->
       cell_at d' (fst c) = Ok (seg_char (chars (snake w)) (snd c))) /\
    (forall q, 0 <= fst q -> 0 <= snd q -> q ∉ map fst (body_cells w) ->
       cell_at d' q = cell_at (data w) q).
Proof.
  intros Hwf Hdirs Hin Hnd Hne. unfold body_cells in *.
  destruct (draw_segments_spec (height w) (width w) (length (snake w)) (chars (snake w))
              _ Hdirs (data w) (pos w) None Hwf Hin)
    as (d1 & p1 & mv1 & Hdraw & Hdims1 & Hw & Hlast).
  remember (snake_cells (segments (snake w)) (length (snake w)) (pos w)) as cells eqn:Hcells.
  destruct (last cells) as [cl|] eqn:Hcl; [|by apply last_None in Hcl].
  destruct Hlast as (mv & -> & Hcl_pos).
  assert (Hcl_in : cl ∈ cells) by by apply last_Some_elem_of.
  assert (Hpos_cell : pos w ∈ map fst cells).
  { destruct cells as [|c0 cells']; [done|]. symmetry in Hcells.
    apply snake_cells_first in Hcells. rewrite <- Hcells. simpl. apply list_elem_of_here. }
  assert (Hgrid : forall c, c ∈ cells -> in_grid w (fst c)).
  { intros c Hc. by apply (proj1 (Forall_forall _ _) Hin c). }
  assert (Hpos_in : in_grid w (pos w)).
  { apply list_elem_of_fmap in Hpos_cell as (c & -> & Hc). by apply Hgrid. }
  destruct (Hgrid cl Hcl_in) as [Hclr Hclc].
  destruct (set_cell_in_grid _ _ _ Hdims1 (fst cl) (c_tail (chars (snake w))) Hclr Hclc)
    as (d2 & Hd2 & Hdims2 & Htail & Hother2).
  destruct (set_cell_in_grid _ _ _ Hdims2 (pos w) (c_head (chars (snake w)))
              (proj1 Hpos_in) (proj2 Hpos_in))
    as (d3 & Hd3 & Hdims3 & Hhead & Hother3).
  assert (Hin' : Forall (fun c : Z * Z * string => inside (height w) (width w) (fst c))
                   (map (fun c => (fst c, seg_char (chars (snake w)) (snd c))) cells)).
  { by rewrite Forall_fmap. }
  assert (Hnd' : NoDup (map fst
                   (map (fun c => (fst c, seg_char (chars (snake w)) (snd c))) cells))).
  { by rewrite map_map. }
  destruct (write_all_cells _ _ _ _ _ Hwf Hin' Hnd' Hw) as [Hwritten Hkept].
  rewrite map_map in Hkept. simpl in Hkept.
  exists d3. unfold insertSnake. rewrite Hdraw. rsimpl. cbn [cur_move cur_ptr cur_data].
  rewrite <- Hcl_pos, Hd2. rsimpl. rewrite Hd3.
  split; [done|]. split; [done|]. split; [done|]. split; [done|]. split; [|split].
  - intros c [= <-] Hcne. rewrite Hother3; [done|lia..|done].
  - intros c Hc Hcne Hcnl.
    destruct (Hgrid c Hc) as [[] []].
    rewrite Hother3 by done. rewrite Hother2; [|done..|].
    + apply Hwritten.
      by apply (list_elem_of_fmap_2 (fun c => (fst c, seg_char (chars (snake w)) (snd c)))) in Hc.
    + intros Heq. apply Hcnl. f_equal. symmetry.
      by apply (NoDup_fmap_eq fst cells).
  - intros q Hq1 Hq2 Hq.
    assert (q <> pos w) by (by intros ->).
    assert (q <> fst cl).
    { intros ->. apply Hq. by apply (list_elem_of_fmap_2 fst). }
    rewrite Hother3, Hother2 by done. by apply Hkept.
Qed.

(** ** clearSnake *)

Lemma clearSnake_dims (w : World) : wf_grid w -> wf_grid (clearSnake w).
Proof.
  intros [Hlen Hrows]. split; simpl.
  - by rewrite length_map.
  - rewrite Forall_fmap. eapply Forall_impl; [exact Hrows|].
    intros row Hrow. simpl. by rewrite length_map.
Qed.

Lemma clearSnake_cell (w : World) (q : Z * Z) :
  wf_grid w -> in_grid w q ->
  exists x, cell_at (data w) q = Ok x /\
    cell_at (data (clearSnake w)) q = Ok (clear_cell (chars (snake w)) x).
Proof.
  intros Hwf [Hr Hc].
  destruct (cell_at_in_grid _ _ _ Hwf q Hr Hc) as (x & Hx & Hlook).
  destruct (cell_at_in_grid _ _ _ (clearSnake_dims w Hwf) q Hr Hc) as (y & Hy & Hlook').
  exists x. split; [done|]. rewrite Hy. f_equal.
  simpl in Hlook'. rewrite list_lookup_fmap in Hlook'.
  destruct (data w !! Z.to_nat (fst q)) as [row|]; [|done]. simpl in *.
  rewrite list_lookup_fmap, Hlook in Hlook'. by injection Hlook' as <-.
Qed.


Lemma in_chars_head (cs : Chars) : in_chars (c_head cs) cs = true.
Proof. unfold in_chars. by rewrite String.eqb_refl. Qed.

Lemma in_chars_tail_glyph (cs : Chars) : in_chars (c_tail cs) cs = true.
Proof. unfold in_chars. rewrite (String.eqb_refl (c_tail cs)). by rewrite !orb_true_r. Qed.

(** * Rendering a valid state *)



(** * Construction and loss *)

Section DrawReturns.
Variables (h w : Z).

(** When the inner loop returns it has either drawn nothing or drawn its
    first piece at the pointer it started from, which lies inside the grid. *)
Lemma draw_pieces_Ok (n : nat) (direction char : string) (st st' : cursor) :
  grid_dims h w (cur_data st) ->
  draw_pieces n h w direction char st = Ok st' ->
  grid_dims h w (cur_data st') /\
  (is_Some (cur_move st) -> is_Some (cur_move st')) /\
  (st' = st \/ (inside h w (cur_ptr st) /\ is_Some (cur_move st'))).
Proof.
  revert st. induction n as [|n IH]; intros st Hdims H.
  - injection H as <-. auto.
  - cbn [draw_pieces] in H.
    destruct (negb (in_range (fst (cur_ptr st)) h) || negb (in_range (snd (cur_ptr st)) w))
      eqn:Hrange; [discriminate|].
    apply bind_Ok in H as (d & Hd & H). apply bind_Ok in H as (mv & Hmv & H).
    apply IH in H as (Hdims' & Hmono & _); [|by eapply set_cell_dims].
    split; [done|]. split; [intros _; by apply Hmono|].
    right. split; [|by apply Hmono].
    apply orb_false_elim in Hrange as [Hr Hc].
    apply negb_false_iff in Hr, Hc. unfold in_range in Hr, Hc.
    apply andb_true_iff in Hr as [Hr1 Hr2], Hc as [Hc1 Hc2].
    split; lia.
Qed.

Lemma draw_segments_Ok (len : Z) (cs : Chars) (segs : list segment) (st st' : cursor) :
  grid_dims h w (cur_data st) ->
  draw_segments segs len h w cs st = Ok st' ->
  grid_dims h w (cur_data st') /\
  (is_Some (cur_move st) -> is_Some (cur_move st')) /\
  (st' = st \/ (inside h w (cur_ptr st) /\ is_Some (cur_move st'))).
Proof.
  revert st. induction segs as [|seg rest IH]; intros st Hdims H.
  - injection H as <-. auto.
  - cbn [draw_segments] in H. apply bind_Ok in H as (st1 & H1 & H).
    apply draw_pieces_Ok in H1 as (Hdims1 & Hmono1 & Hfirst1); [|done].
    apply IH in H as (Hdims' & Hmono & Hfirst); [|done].
    split; [done|]. split; [auto|].
    destruct Hfirst1 as [->|[Hin Hsome]]; [done|].
    right. split; [done|]. destruct Hfirst as [->|[_ ?]]; auto.
Qed.
End DrawReturns.

(** A returning [insertSnake] has found the head inside the grid and left
    the head glyph there. *)
Lemma insertSnake_Ok (w w' : World) :
  wf_grid w -> insertSnake w = Ok w' ->
  wf_grid w' /\ snake w' = snake w /\ pos w' = pos w /\ height w' = height w /\
  width w' = width w /\ foodchar w' = foodchar w /\
  in_grid w (pos w) /\ cell_at (data w') (pos w) = Ok (c_head (chars (snake w))).
Proof.
  intros Hwf H. unfold insertSnake in H. apply bind_Ok in H as (st & Hdraw & H).
  apply draw_segments_Ok in Hdraw as (Hdims & _ & Hfirst); [|done].
  destruct (cur_move st) as [mv|] eqn:Hmv; [|discriminate].
  destruct Hfirst as [->|[Hin _]]; [discriminate|]. simpl in Hin.
  apply bind_Ok in H as (d1 & Hd1 & H). apply bind_Ok in H as (d2 & Hd2 & [= <-]).
  pose proof (set_cell_dims _ _ _ _ _ _ Hdims Hd1) as Hdims1.
  destruct (set_cell_in_grid _ _ _ Hdims1 (pos w) (c_head (chars (snake w)))
              (proj1 Hin) (proj2 Hin)) as (d2' & Hd2' & Hdims2 & Hhead & _).
  rewrite Hd2 in Hd2'. injection Hd2' as <-. done.
Qed.

(** What a returning [World.__init__] has established. *)
Lemma World_init_Ok (s : Snake) (p : option (Z * Z)) (h w : Z) (fc : string)
    (rnd rnd' : list (nat * nat)) (w0 : World) :
  World_init s p h w fc rnd = Ok (w0, rnd') ->
  wf_grid w0 /\ snake w0 = s /\ height w0 = h /\ width w0 = w /\ foodchar w0 = fc /\
  pos w0 = match p with Some p => p | None => (h / 2, w / 4) end /\
  length s - 1 <= snd (pos w0) /\
  in_grid w0 (pos w0) /\
  (cell_at (data w0) (pos w0) = Ok (c_head (chars s)) \/
   (c_head (chars s) = " " /\ cell_at (data w0) (pos w0) = Ok fc)).
Proof.
  unfold World_init. set (p0 := match p with Some p => p | None => _ end).
  destruct (Z.ltb_spec (snd p0) (length s - 1)) as [|Hcol]; [discriminate|].
  intros H. apply bind_Ok in H as (w1 & Hins & Hpf).
  apply insertSnake_Ok in Hins
    as (Hwf1 & Hsn & Hpos & Hh & Hw & Hfc & Hin & Hhead); [|apply gen_data_dims].
  simpl in Hsn, Hpos, Hh, Hw, Hfc, Hin, Hhead.
  assert (Hin1 : in_grid w1 (pos w1)).
  { unfold in_grid. by rewrite Hh, Hw, Hpos. }
  pose proof (placeFood_keeps _ _ _ _ Hwf1 Hpf) as (Hwf0 & Hsn0 & Hpos0 & Hh0 & Hw0 & Hfc0 & _).
  apply placeFood_Ok in Hpf as (q & [Hqr Hqc] & Hblank & Hset & _ & _).
  destruct (set_cell_in_grid _ _ _ Hwf1 q (foodchar w1) Hqr Hqc)
    as (d' & Hd' & _ & Hnew & Hother).
  rewrite Hset in Hd'. injection Hd' as <-.
  rewrite Hsn0, Hh0, Hw0, Hfc0, Hpos0.
  split; [done|]. do 4 (split; [congruence|]). split; [done|].
  split; [by rewrite Hpos|].
  split; [unfold in_grid; by rewrite Hh0, Hw0|].
  rewrite Hpos. destruct (decide (p0 = q)) as [->|Hne].
  - right. rewrite Hhead in Hblank. injection Hblank as Hblank.
    split; [done|]. by rewrite <- Hfc.
  - left. destruct Hin as [[] []]. by rewrite Hother.
Qed.

(** Every state the public operations produce has a grid of the world's
    dimensions. *)
Lemma reachable_wf (w : World) : reachable w -> wf_grid w.
Proof.
  induction 1 as [s p h wd fc rnd w0 rnd' Hinit| | |w w' _ IH Hstep
                  |w w' out _ IH Hrepr|rnd w w' rnd' _ IH Hpf]; try done.
  - by apply World_init_Ok in Hinit as [? _].
  - unfold step in Hstep. apply bind_Ok in Hstep as (segs & _ & Hstep).
    apply bind_Ok in Hstep as (s0 & _ & Hstep). apply bind_Ok in Hstep as (mv & _ & [= <-]).
    exact IH.
  - unfold World_repr in Hrepr. apply bind_Ok in Hrepr as (w1 & Hins & [= _ <-]).
    apply insertSnake_Ok in Hins as [Hwf _]; [done|by apply clearSnake_dims].
  - by apply placeFood_keeps in Hpf as [? _].
Qed.

Lemma in_chars_tail_spec (cell : string) (cs : Chars) :
  in_chars_tail cell cs = true <->
  cell = c_horiz cs \/ cell = c_vert cs \/ cell = c_tail cs.
Proof.
  unfold in_chars_tail. rewrite !orb_true_iff, !String.eqb_eq. tauto.
Qed.

Lemma in_range_spec (x n : Z) : in_range x n = true <-> 0 <= x < n.
Proof. unfold in_range. rewrite andb_true_iff, Z.leb_le, Z.ltb_lt. done. Qed.

(** [loss] on a grid of the world's dimensions: it returns, and says
    whether the head is outside the grid or on a body or tail glyph. *)
Lemma loss_returns (w : World) :
  wf_grid w ->
  exists b, loss w = Ok b /\
    (b = true <->
       ~ in_grid w (pos w) \/
       exists cell, cell_at (data w) (pos w) = Ok cell /\
         (cell = c_horiz (chars (snake w)) \/ cell = c_vert (chars (snake w)) \/
          cell = c_tail (chars (snake w)))).
Proof.
  intros Hwf. unfold loss.
  destruct (in_range (fst (pos w)) (height w)) eqn:Hr; simpl.
  2:{ exists true. split; [done|]. split; [|done]. intros _. left. intros [Hr' _].
      apply in_range_spec in Hr'. congruence. }
  destruct (in_range (snd (pos w)) (width w)) eqn:Hc; simpl.
  2:{ exists true. split; [done|]. split; [|done]. intros _. left. intros [_ Hc'].
      apply in_range_spec in Hc'. congruence. }
  apply in_range_spec in Hr, Hc.
  destruct (cell_at_in_grid _ _ _ Hwf (pos w) Hr Hc) as (x & Hx & _).
  rewrite Hx. rsimpl. eexists. split; [reflexivity|].
  rewrite in_chars_tail_spec. split.
  - intros Hx'. right. by exists x.
  - intros [Hout|(cell & [= <-] & Hcell)]; [|done]. by destruct Hout.
Qed.

(** C4, as amended: on every state whose grid has the world's dimensions
    [loss] returns true iff the head position is outside the grid or the
    cell at the head position holds the horizontal, vertical or tail glyph;
    and [loss] is false right after every construction that returns,
    provided the head glyph is none of those three glyphs (and, when the
    head glyph is the blank, the food glyph is none of them either). *)
Theorem loss_spec :
  (forall w, wf_grid w ->
     exists b, loss w = Ok b /\
       (b = true <->
          ~ in_grid w (pos w) \/
          exists cell, cell_at (data w) (pos w) = Ok cell /\
            (cell = c_horiz (chars (snake w)) \/ cell = c_vert (chars (snake w)) \/
             cell = c_tail (chars (snake w))))) /\
  (forall s p h w fc rnd w0 rnd',
     World_init s p h w fc rnd = Ok (w0, rnd') ->
     in_chars_tail (c_head (chars s)) (chars s) = false ->
     (c_head (chars s) = " " -> in_chars_tail fc (chars s) = false) ->
     loss w0 = Ok false).
Proof.
  split; [exact loss_returns|].
  intros s p h w fc rnd w0 rnd' Hinit Hhead Hfood.
  apply World_init_Ok in Hinit as (Hwf & Hsn & Hh & Hw & Hfc & _ & _ & Hin & Hcell).
  destruct (loss_returns w0 Hwf) as (b & Hloss & Hb). rewrite Hloss. f_equal.
  destruct b; [|done]. destruct (proj1 Hb eq_refl) as [Hout|(cell & Hc & Hglyph)]; [done|].
  apply in_chars_tail_spec in Hglyph. rewrite Hsn in Hglyph.
  destruct Hcell as [Hcell|[Hblank Hcell]]; rewrite Hcell in Hc; injection Hc as <-.
  - congruence.
  - rewrite Hfood in Hglyph; done.
Qed.

Lemma loss_spec_witness :
  exists w0 rnd',
    World_init (default_snake 3) None 16 16 "*" [(0%nat, 0%nat)] = Ok (w0, rnd') /\
    loss w0 = Ok false.
Proof.
  destruct (World_init (default_snake 3) None 16 16 "*" [(0%nat, 0%nat)])
    as [[w0 rnd']| |] eqn:Hinit; [|vm_compute in Hinit; discriminate..].
  exists w0, rnd'. split; [reflexivity|].
  apply (proj2 loss_spec _ _ _ _ _ _ _ _ Hinit); [reflexivity|discriminate].
Defined.

(** C4, as stated, fails: Snake(3, chars=('-','-','|','x')) and World(s)
    construct without raising, the head cell then holds '-', which is also
    the horizontal body glyph, and [loss] returns true. *)
Lemma loss_true_after_construction :
  exists s w0 rnd',
    Snake_init 3 default_segments (Some (mkChars "-" "-" "|" "x")) = Ok s /\
    World_init s None 16 16 "*" [(0%nat, 0%nat)] = Ok (w0, rnd') /\
    loss w0 = Ok true.
Proof. do 3 eexists. repeat split; vm_compute; reflexivity. Qed.

(** * onFood indexes the grid unchecked *)







(** * Construction errors *)


(** [insertSnake] returns whenever the snake draws at least one piece and
    every piece lies inside the grid. *)
Lemma insertSnake_returns (w : World) :
  wf_grid w ->
  Forall (fun seg : segment => snd seg ∈ ["N"; "S"; "E"; "W"]) (segments (snake w)) ->
  Forall (fun c => in_grid w (fst c)) (body_cells w) ->
  body_cells w <> [] ->
  exists w', insertSnake w = Ok w'.
Proof.
  intros Hwf Hdirs Hin Hne. unfold body_cells in *.
  destruct (draw_segments_spec (height w) (width w) (length (snake w)) (chars (snake w))
              _ Hdirs (data w) (pos w) None Hwf Hin)
    as (d1 & p1 & mv1 & Hdraw & Hdims1 & _ & Hlast).
  remember (snake_cells (segments (snake w)) (length (snake w)) (pos w)) as cells eqn:Hcells.
  destruct (last cells) as [cl|] eqn:Hcl; [|by apply last_None in Hcl].
  destruct Hlast as (mv & -> & Hcl_pos).
  assert (Hgrid : forall c, c ∈ cells -> in_grid w (fst c)).
  { intros c Hc. by apply (proj1 (Forall_forall _ _) Hin c). }
  destruct (Hgrid cl) as [Hclr Hclc]; [by apply last_Some_elem_of|].
  assert (Hpos_in : in_grid w (pos w)).
  { destruct cells as [|c0 cells']; [done|]. symmetry in Hcells.
    apply snake_cells_first in Hcells. rewrite <- Hcells. apply Hgrid, list_elem_of_here. }
  destruct (set_cell_in_grid _ _ _ Hdims1 (fst cl) (c_tail (chars (snake w))) Hclr Hclc)
    as (d2 & Hd2 & Hdims2 & _).
  destruct (set_cell_in_grid _ _ _ Hdims2 (pos w) (c_head (chars (snake w)))
              (proj1 Hpos_in) (proj2 Hpos_in)) as (d3 & Hd3 & _).
  exists (set_data d3 w). unfold insertSnake. rewrite Hdraw. rsimpl.
  cbn [cur_move cur_ptr cur_data]. rewrite <- Hcl_pos, Hd2. rsimpl. by rewrite Hd3.
Qed.

(** The pieces of an eastbound segment run west from the head. *)
Lemma piece_cells_east_inside (h w : Z) (n : nat) (r c : Z) :
  0 <= r < h -> Z.of_nat n - 1 <= c < w ->
  Forall (inside h w) (piece_cells n (0, 1) (r, c)).
Proof.
  revert c. induction n as [|n IH]; intros c Hr Hc; [constructor|].
  cbn [piece_cells]. constructor.
  - split; simpl; lia.
  - simpl. replace (r - 0) with r by lia. apply IH; lia.
Qed.


(** The constructor as an object (a reference into the store) and as the
    snake it describes: the store version runs the same check on the
    contents of the list it receives. *)
Lemma Shared_Snake_init_view (st : Shared.Store) (len : Z) (segs : option nat)
    (cs : option Chars) :
  Shared.Snake_init len segs cs st
  = (s ← Snake_init len (Shared.deref st (default (Shared.default_ref st) segs)) cs;
     Ok (Shared.mkSnakeObj (length s) (chars s) (default (Shared.default_ref st) segs))).
Proof.
  unfold Shared.Snake_init, Snake_init.
  by destruct (check_segments len _) as [[]| |].
Qed.


(** The default list is checked as it is at the time of the call: once a
    default-constructed snake has turned and its world has stepped twice,
    the old segment is at distance 2 and Snake(3) without a [segments]
    argument is rejected, while Snake(4) is still accepted. *)
Lemma default_snake_rejected_after_steps :
  exists a st1 p1 p2,
    Shared.Snake_init 3 None None Shared.class_defined = Ok a /\
    shared_step (Shared.turn "N" a Shared.class_defined) a (8, 4) = Ok (st1, p1) /\
    shared_step st1 a p1 = Ok (stale_default_store, p2) /\
    Shared.Snake_init 3 None None stale_default_store
    = Raise (Exception "Snake segments must begin before the tail") /\
    returns (Shared.Snake_init 4 None None stale_default_store).
Proof.
  eexists _, _, _, _. split; [vm_compute; reflexivity|].
  split; [vm_compute; reflexivity|]. split; [vm_compute; reflexivity|].
  split; [vm_compute; reflexivity|].
  eexists. vm_compute. reflexivity.
Qed.




(** On a board that the snake fills, construction neither raises nor
    returns: [placeFood] keeps sampling. *)
Lemma World_init_full_board (rnd : list (nat * nat)) :
  World_init (default_snake 3) (Some (0, 2)) 1 3 "*" rnd = OutOfDraws.
Proof.
  unfold World_init. cbn [snd length default_snake].
  change (2 <? 3 - 1) with false. cbv iota.
  destruct (insertSnake (gen (mkWorld (default_snake 3) (0, 2) 1 3 "*" [[]])))
    as [w0| |] eqn:Hw0; vm_compute in Hw0; try discriminate.
  injection Hw0 as <-. rsimpl.
  induction rnd as [|[r1 r2] rnd IH]; [done|].
  cbn [placeFood height width data]. unfold choice_range.
  change (1 <=? 0) with false. change (3 <=? 0) with false. cbv iota. rsimpl.
  rewrite Z.mod_1_r.
  pose proof (Z.mod_pos_bound (Z.of_nat r2) 3 eq_refl) as Hj.
  assert (Z.of_nat r2 mod 3 = 0 \/ Z.of_nat r2 mod 3 = 1 \/ Z.of_nat r2 mod 3 = 2)
    as [-> | [-> | ->]] by lia; exact IH.
Qed.

(** * Eating *)

Lemma refill_no_food (fuel : nat) (rnd : list (nat * nat)) (w : World) :
  onFood w = Ok false -> refill fuel rnd w = Ok (w, rnd).
Proof. intros H. destruct fuel; simpl; by rewrite H. Qed.

(** After the eaten cell is cleared [onFood] is false, so the loop that
    should place the next food runs zero times: the draws are untouched and
    the grid is left without the food that was eaten. *)
Lemma eat_places_no_food (fuel : nat) (rnd : list (nat * nat)) (w : World) (n : Z) :
  wf_grid w -> in_grid w (pos w) -> foodchar w <> " " ->
  exists d, set_cell (data w) (pos w) " " = Ok d /\
    eat fuel rnd w n = Ok (set_data d (World_grow 1 w), n + 1, rnd) /\
    cell_at d (pos w) = Ok " " /\
    (forall q, in_grid w q -> q <> pos w -> cell_at d q = cell_at (data w) q).
Proof.
  intros Hwf [Hr Hc] Hfood.
  destruct (set_cell_in_grid _ _ _ Hwf (pos w) " " Hr Hc) as (d & Hd & _ & Hnew & Hother).
  exists d. split; [done|]. split; [|split; [done|]].
  - unfold eat. cbn [data pos set_snake]. rewrite Hd. rsimpl.
    rewrite refill_no_food; [done|].
    unfold onFood. cbn [data pos set_data set_snake foodchar]. rewrite Hnew. rsimpl.
    f_equal. apply String.eqb_neq. congruence.
  - intros q [[] []] Hq. by apply Hother.
Qed.

(** In a state with the head inside the grid, [onFood] returns and tells
    whether the head cell holds the food glyph. *)
Lemma onFood_in_grid (w : World) :
  wf_grid w -> in_grid w (pos w) ->
  exists cell, cell_at (data w) (pos w) = Ok cell /\
    onFood w = Ok (String.eqb cell (foodchar w)).
Proof.
  intros Hwf [Hr Hc]. destruct (cell_at_in_grid _ _ _ Hwf (pos w) Hr Hc) as (x & Hx & _).
  exists x. split; [done|]. unfold onFood. by rewrite Hx.
Qed.

(** C3: in the default world with the food at (8,5), the first pass of the
    game loop moves the head onto the food; the eat branch grows the snake
    and counts the food, clears the cell and places nothing: whatever the
    fuel and the random draws, the grid is left with no food cell and the
    draws are unused. *)
Theorem food_not_replaced_in_run (fuel : nat) (rnd : list (nat * nat)) :
  exists w0 rnd0 w1,
    World_init (default_snake 3) None 16 16 "*" [(8%nat, 5%nat)] = Ok (w0, rnd0) /\
    count_glyph "*" (data w0) = 1%nat /\
    run_iteration fuel rnd w0 0 = Ok (true, (w1, 1, rnd)) /\
    pos w1 = (8, 5) /\ length (snake w1) = 4 /\
    count_glyph "*" (data w1) = 0%nat.
Proof.
  destruct (World_init (default_snake 3) None 16 16 "*" [(8%nat, 5%nat)])
    as [[w0 rnd0]| |] eqn:Hinit; vm_compute in Hinit; try discriminate.
  injection Hinit as <- <-.
  eexists _, _, _. split; [reflexivity|]. split; [reflexivity|].
  unfold run_iteration.
  match goal with |- context [World_repr ?w] =>
    destruct (World_repr w) as [[out w1]| |] eqn:Hrepr; vm_compute in Hrepr; try discriminate
  end.
  injection Hrepr as <- <-. rsimpl.
  match goal with |- context [step ?w] =>
    destruct (step w) as [w2| |] eqn:Hstep; vm_compute in Hstep; try discriminate
  end.
  injection Hstep as <-. rsimpl.
  match goal with |- context [loss ?w] => change (loss w) with (Ok false : result bool) end.
  rsimpl.
  match goal with |- context [onFood ?w] => change (onFood w) with (Ok true : result bool) end.
  rsimpl.
  match goal with |- context [eat fuel rnd ?w 0] =>
    destruct (eat_places_no_food fuel rnd w 0) as (d & Hd & Heat & _);
      [split; [reflexivity|repeat constructor]
      |split; split; simpl; lia
      |simpl; discriminate|]
  end.
  rewrite Heat. rsimpl. vm_compute in Hd. injection Hd as <-.
  split; [reflexivity|]. split; [reflexivity|]. split; reflexivity.
Qed.

(** The whole default game with the food at (8,5): the loop runs into the
    east wall with length 4 and one food eaten, without using a draw. *)
Lemma run_ends_with_one_food :
  exists w0 rnd0,
    World_init (default_snake 3) None 16 16 "*" [(8%nat, 5%nat)] = Ok (w0, rnd0) /\
    run 20 5 [(1%nat, 1%nat); (2%nat, 2%nat)] w0 0 = Ok (4, 1).
Proof. do 2 eexists. split; vm_compute; reflexivity. Qed.

(** * Growing *)

Lemma piece_cells_length (n : nat) (mv p : Z * Z) :
  List.length (piece_cells n mv p) = n.
Proof. revert p. induction n as [|n IH]; intros p; simpl; [done|]. by rewrite IH. Qed.

(** A snake that has never turned draws [length - distance] pieces, so
    growing it by [n] adds exactly [n] pieces. *)
Lemma grow_straight_snake (n : Z) (w : World) (s0 : segment) :
  segments (snake w) = [s0] -> fst s0 <= length (snake w) -> 0 <= n ->
  List.length (body_cells (World_grow n w))
  = (List.length (body_cells w) + Z.to_nat n)%nat.
Proof.
  intros Hsegs Hd Hn. unfold body_cells. simpl. rewrite Hsegs. simpl.
  rewrite !app_nil_r, !length_map, !piece_cells_length. lia.
Qed.

(** Once the second segment of a two-segment snake has passed the tail, the
    snake is drawn with one piece per step taken, whatever its length. *)
Lemma two_segment_overdraw (k : nat) (w : World) (direction0 direction1 : string)
    (d1 : Z) :
  segments (snake w) = [(0, direction0); (d1, direction1)] ->
  direction0 ∈ ["N"; "S"; "E"; "W"] ->
  0 <= d1 ->
  length (snake w) <= d1 + Z.of_nat k ->
  exists w', steps k w = Ok w' /\ length (snake w') = length (snake w) /\
    Z.of_nat (List.length (body_cells w')) = d1 + Z.of_nat k.
Proof.
  intros Hsegs Hdir Hd1 Hk.
  destruct (matrix_moves_valid _ Hdir) as (mv & Hmv & _).
  eexists. split; [by apply (steps_straight k w (0, direction0) [(d1, direction1)] mv)|].
  split; [done|]. unfold body_cells. simpl.
  rewrite app_nil_r, length_app, !length_map, !piece_cells_length. lia.
Qed.

(** C8: [grow] adds [n] to the length and changes no other field of the
    snake or the world.  On the run Snake(3); World(s); turn('S'); step()
    the grid shows 3 snake cells; after grow(1) it shows 4 cells for up to
    three more steps, then 5 after four steps, 6 after five and 7 after six:
    the count does not settle at the pre-grow count plus one. *)
Theorem grow_then_steps_overdraws :
  (forall n w,
     length (snake (World_grow n w)) = length (snake w) + n /\
     segments (snake (World_grow n w)) = segments (snake w) /\
     chars (snake (World_grow n w)) = chars (snake w) /\
     pos (World_grow n w) = pos w /\ height (World_grow n w) = height w /\
     width (World_grow n w) = width w /\ foodchar (World_grow n w) = foodchar w /\
     data (World_grow n w) = data w) /\
  exists s w0 rnd' w1,
    Snake_init 3 default_segments None = Ok s /\
    World_init s None 16 16 "*" [(0%nat, 0%nat)] = Ok (w0, rnd') /\
    step (World_turn "S" w0) = Ok w1 /\
    rasterized_cells w1 = Ok 3%nat /\
    rasterized_cells (World_grow 1 w1) = Ok 4%nat /\
    (w' ← steps 1 (World_grow 1 w1); rasterized_cells w') = Ok 4%nat /\
    (w' ← steps 2 (World_grow 1 w1); rasterized_cells w') = Ok 4%nat /\
    (w' ← steps 3 (World_grow 1 w1); rasterized_cells w') = Ok 4%nat /\
    (w' ← steps 4 (World_grow 1 w1); rasterized_cells w') = Ok 5%nat /\
    (w' ← steps 5 (World_grow 1 w1); rasterized_cells w') = Ok 6%nat /\
    (w' ← steps 6 (World_grow 1 w1); rasterized_cells w') = Ok 7%nat.
Proof.
  split; [done|].
  do 4 eexists. split; [vm_compute; reflexivity|].
  split; [vm_compute; reflexivity|]. split; [vm_compute; reflexivity|].
  repeat split; vm_compute; reflexivity.
Qed.

(** * The shared default segment list *)

Lemma turn_segments_not_default (direction : string) (l : list segment) :
  turn_segments direction l <> default_segments.
Proof. unfold turn_segments, default_segments. intros [= ? _]. Qed.

(** A snake given its own list literal is not affected by turns of the
    default-constructed snakes. *)
Lemma explicit_segments_not_shared (st : Shared.Store) (l : list segment)
    (la lb : Z) (a b : Shared.SnakeObj) (direction : string) :
  is_Some (Shared.lists st !! Shared.default_ref st) ->
  let '(r, st1) := Shared.new_list l st in
  Shared.Snake_init la None None st1 = Ok a ->
  Shared.Snake_init lb (Some r) None st1 = Ok b ->
  segments (Shared.view (Shared.turn direction a st1) b) = l.
Proof.
  intros Hdef. unfold Shared.new_list. intros Ha Hb.
  unfold Shared.Snake_init in Ha, Hb. simpl in Ha, Hb.
  apply bind_Ok in Ha as (_ & _ & [= <-]). apply bind_Ok in Hb as (_ & _ & [= <-]).
  unfold Shared.view, Shared.deref, Shared.turn. simpl.
  rewrite lookup_alter_ne.
  - by rewrite lookup_insert_eq.
  - intros Heq. apply (is_fresh (dom (Shared.lists st))).
    rewrite <- Heq. by apply elem_of_dom.
Qed.

(** C9: every snake constructed without a [segments] argument holds the
    same reference, the one of the default list; once one of them turns, each
    of the others, and each default snake constructed later, sees the
    prepended [[-1, d]] in its own segments, which are then no longer
    [[[0, 'E']]].  In particular this holds for the module-level Snake(3). *)
Theorem default_segments_are_shared :
  (forall st la lb ca cb a b direction l0,
     Shared.lists st !! Shared.default_ref st = Some l0 ->
     Shared.Snake_init la None ca st = Ok a ->
     Shared.Snake_init lb None cb st = Ok b ->
     Shared.obj_segments a = Shared.obj_segments b /\
     segments (Shared.view st b) = l0 /\
     segments (Shared.view (Shared.turn direction a st) b) = (-1, direction) :: l0 /\
     forall lc cc c,
       Shared.Snake_init lc None cc (Shared.turn direction a st) = Ok c ->
       segments (Shared.view (Shared.turn direction a st) c) = (-1, direction) :: l0 /\
       segments (Shared.view (Shared.turn direction a st) c) <> [(0, "E")]) /\
  (exists s t u,
     Shared.Snake_init 3 None None Shared.class_defined = Ok s /\
     segments (Shared.view Shared.class_defined s) = [(0, "E")] /\
     Shared.Snake_init 5 None None Shared.class_defined = Ok t /\
     segments (Shared.view (Shared.turn "N" t Shared.class_defined) s)
     = [(-1, "N"); (0, "E")] /\
     Shared.Snake_init 4 None None (Shared.turn "N" t Shared.class_defined) = Ok u /\
     segments (Shared.view (Shared.turn "N" t Shared.class_defined) u)
     = [(-1, "N"); (0, "E")]).
Proof.
  split.
  - intros st la lb ca cb a b direction l0 Hdef Ha Hb.
    unfold Shared.Snake_init in Ha, Hb. simpl in Ha, Hb.
    apply bind_Ok in Ha as (_ & _ & [= <-]). apply bind_Ok in Hb as (_ & _ & [= <-]).
    assert (Hturned : Shared.deref (Shared.turn direction
                        (Shared.mkSnakeObj la (default default_chars ca) (Shared.default_ref st)) st)
                        (Shared.default_ref st) = (-1, direction) :: l0).
    { unfold Shared.deref, Shared.turn. simpl. by rewrite lookup_alter_eq, Hdef. }
    split; [done|]. split; [|split; [done|]].
    + unfold Shared.view, Shared.deref. simpl. by rewrite Hdef.
    + intros lc cc c Hc. unfold Shared.Snake_init in Hc. simpl in Hc.
      apply bind_Ok in Hc as (_ & _ & [= <-]). simpl.
      rewrite Hturned. split; [done|]. apply turn_segments_not_default.
  - do 3 eexists. repeat split; vm_compute; reflexivity.
Qed.

Lemma default_segments_are_shared_witness :
  exists s t,
    Shared.Snake_init 3 None None Shared.class_defined = Ok s /\
    Shared.Snake_init 5 None None Shared.class_defined = Ok t /\
    segments (Shared.view (Shared.turn "W" t Shared.class_defined) s)
    = [(-1, "W"); (0, "E")].
Proof.
  exists (Shared.mkSnakeObj 3 default_chars 0), (Shared.mkSnakeObj 5 default_chars 0).
  split; [reflexivity|]. split; [reflexivity|].
  destruct (proj1 default_segments_are_shared Shared.class_defined 5 3 None None
              (Shared.mkSnakeObj 5 default_chars 0) (Shared.mkSnakeObj 3 default_chars 0)
              "W" default_segments) as (_ & _ & Hseen & _); [reflexivity..|].
  exact Hseen.
Defined.

(** * Further properties of the grid operations *)


(** ** Counting glyphs *)

Lemma count_row_insert (g : string) (row : list string) (k : nat) (x y : string) :
  row !! k = Some y ->
  (List.length (List.filter (String.eqb g) (<[k := x]> row)) + glyph_bit g y
   = List.length (List.filter (String.eqb g) row) + glyph_bit g x)%nat.
Proof.
  revert k. induction row as [|a row IH]; intros k Hk; [done|].
  destruct k as [|k]; simpl in *.
  - injection Hk as ->. unfold glyph_bit.
    destruct (String.eqb g x), (String.eqb g y); simpl; lia.
  - specialize (IH k Hk). destruct (String.eqb g a); simpl; lia.
Qed.

Lemma count_glyph_insert (g : string) (d : grid) (r : nat) (row row' : list string) :
  d !! r = Some row ->
  (count_glyph g (<[r := row']> d) + List.length (List.filter (String.eqb g) row)
   = count_glyph g d + List.length (List.filter (String.eqb g) row'))%nat.
Proof.
  unfold count_glyph. revert r. induction d as [|a d IH]; intros r Hr; [done|].
  destruct r as [|r]; simpl in *.
  - injection Hr as ->. lia.
  - specialize (IH r Hr). lia.
Qed.

(** An assignment inside the grid moves the count of a glyph by what it
    overwrites and what it writes. *)
Lemma count_glyph_set_cell (h w : Z) (g : string) (d d' : grid) (p : Z * Z)
    (x y : string) :
  grid_dims h w d -> inside h w p ->
  cell_at d p = Ok y -> set_cell d p x = Ok d' ->
  (count_glyph g d' + glyph_bit g y = count_glyph g d + glyph_bit g x)%nat.
Proof.
  intros Hdims [Hr Hc] Hy Hset.
  destruct (grid_row _ _ _ Hdims (fst p) Hr) as (row & Hrow & Hlen).
  unfold cell_at in Hy. rewrite py_get_nonneg in Hy by lia. rewrite Hrow in Hy.
  cbn [mbind result_bind] in Hy. rewrite py_get_nonneg in Hy by lia.
  destruct (row !! Z.to_nat (snd p)) as [y'|] eqn:Hcell; [|done]. injection Hy as ->.
  unfold set_cell in Hset. rewrite py_get_nonneg in Hset by lia. rewrite Hrow in Hset.
  cbn [mbind result_bind] in Hset. rewrite py_set_nonneg in Hset by lia.
  destruct (Z.ltb_spec (snd p) (Z.of_nat (List.length row))); [|lia].
  cbn [mbind result_bind] in Hset. rewrite py_set_nonneg in Hset by lia.
  destruct Hdims as [Hdlen _].
  destruct (Z.ltb_spec (fst p) (Z.of_nat (List.length d))); [|lia].
  injection Hset as <-.
  pose proof (count_glyph_insert g d _ row (<[Z.to_nat (snd p) := x]> row) Hrow).
  pose proof (count_row_insert g row _ x y Hcell). lia.
Qed.

Lemma count_glyph_gen (g : string) (h w : Z) :
  g <> " " -> count_glyph g (gen_data h w) = 0%nat.
Proof.
  intros Hg. unfold count_glyph, gen_data.
  assert (Hrow : List.length (List.filter (String.eqb g) (replicate (Z.to_nat w) " ")) = 0%nat).
  { induction (Z.to_nat w) as [|n IH]; [done|]. simpl.
    destruct (String.eqb_spec g " "); [done|exact IH]. }
  induction (Z.to_nat h) as [|n IH]; [done|]. simpl. rewrite Hrow. exact IH.
Qed.

(** Indexing a list of [n] copies of [x]: the indices from [-n] to [n - 1]
    give [x], every other index raises. *)
Lemma py_get_replicate {A} (n : nat) (x : A) (i : Z) :
  py_get (replicate n x) i
  = if (- Z.of_nat n <=? i) && (i <? Z.of_nat n) then Ok x else Raise IndexError.
Proof.
  unfold py_get, py_norm. rewrite length_replicate.
  destruct (Z.leb_spec 0 i); destruct (Z.ltb_spec i (Z.of_nat n));
    destruct (Z.leb_spec (- Z.of_nat n) i); destruct (Z.ltb_spec i 0);
    simpl; try done; try lia; by rewrite lookup_replicate_2 by lia.
Qed.

Lemma cell_at_gen_data (h w : Z) (q : Z * Z) :
  cell_at (gen_data h w) q
  = if (- Z.of_nat (Z.to_nat h) <=? fst q) && (fst q <? Z.of_nat (Z.to_nat h))
    then if (- Z.of_nat (Z.to_nat w) <=? snd q) && (snd q <? Z.of_nat (Z.to_nat w))
         then Ok " " else Raise IndexError
    else Raise IndexError.
Proof.
  unfold cell_at, gen_data. rewrite py_get_replicate.
  destruct (_ && _); [|done]. rsimpl. apply py_get_replicate.
Qed.

(** X1 gen: whatever the grid held, [gen] leaves a grid of the world's
    dimensions in which every cell is blank, so no other glyph occurs; for a
    height that is not positive the grid has no row.  No other field
    changes.  A read at (row, column) returns a blank exactly when
    -height <= row < height and -width <= column < width (negative indices
    count from the end, as Python's do) and raises IndexError for every
    other pair of indices. *)
Theorem gen_blank_room (w : World) :
  wf_grid (gen w) /\
  snake (gen w) = snake w /\ pos (gen w) = pos w /\ height (gen w) = height w /\
  width (gen w) = width w /\ foodchar (gen w) = foodchar w /\
  (forall q, in_grid w q -> cell_at (data (gen w)) q = Ok " ") /\
  (forall g, g <> " " -> count_glyph g (data (gen w)) = 0%nat) /\
  (height w <= 0 -> data (gen w) = []) /\
  (forall q, - height w <= fst q < height w -> - width w <= snd q < width w ->
     cell_at (data (gen w)) q = Ok " ") /\
  (forall q, ~ (- height w <= fst q < height w /\ - width w <= snd q < width w) ->
     cell_at (data (gen w)) q = Raise IndexError).
Proof.
  split; [apply gen_data_dims|]. do 5 (split; [done|]).
  split; [intros q [Hr Hc]; by apply gen_data_blank|].
  split; [intros g Hg; by apply count_glyph_gen|].
  split; [|split].
  - intros Hh. simpl. unfold gen_data. by replace (Z.to_nat (height w)) with 0%nat by lia.
  - intros q Hr Hc. change (data (gen w)) with (gen_data (height w) (width w)).
    rewrite cell_at_gen_data.
    destruct (Z.leb_spec (- Z.of_nat (Z.to_nat (height w))) (fst q)); [|lia].
    destruct (Z.ltb_spec (fst q) (Z.of_nat (Z.to_nat (height w)))); [|lia].
    destruct (Z.leb_spec (- Z.of_nat (Z.to_nat (width w))) (snd q)); [|lia].
    by destruct (Z.ltb_spec (snd q) (Z.of_nat (Z.to_nat (width w)))); [|lia].
  - intros q Hout. change (data (gen w)) with (gen_data (height w) (width w)).
    rewrite cell_at_gen_data.
    destruct (Z.leb_spec (- Z.of_nat (Z.to_nat (height w))) (fst q)); [|done].
    destruct (Z.ltb_spec (fst q) (Z.of_nat (Z.to_nat (height w)))); [|done].
    destruct (Z.leb_spec (- Z.of_nat (Z.to_nat (width w))) (snd q)); [|done].
    destruct (Z.ltb_spec (snd q) (Z.of_nat (Z.to_nat (width w)))); [|done].
    destruct Hout. lia.
Qed.

(** ** clearSnake *)

Lemma clear_cell_idemp (cs : Chars) (x : string) :
  clear_cell cs (clear_cell cs x) = clear_cell cs x.
Proof.
  unfold clear_cell. destruct (in_chars x cs) eqn:Hx; [|by rewrite Hx].
  by destruct (in_chars " " cs).
Qed.

Lemma in_chars_eqb (cs : Chars) (g x : string) :
  in_chars g cs = false -> in_chars x cs = true -> String.eqb g x = false.
Proof.
  intros Hg Hx. apply String.eqb_neq. intros ->. congruence.
Qed.

Lemma count_glyph_clear (cs : Chars) (g : string) (d : grid) :
  in_chars g cs = false -> g <> " " ->
  count_glyph g (map (map (clear_cell cs)) d) = count_glyph g d.
Proof.
  intros Hg Hblank. unfold count_glyph. rewrite map_map. f_equal. apply map_ext.
  intros row. induction row as [|x row IH]; [done|]. simpl.
  assert (Hx : String.eqb g (clear_cell cs x) = String.eqb g x).
  { unfold clear_cell. destruct (in_chars x cs) eqn:Hin; [|done].
    rewrite (in_chars_eqb cs g x Hg Hin). by apply String.eqb_neq. }
  rewrite Hx. destruct (String.eqb g x); simpl; by rewrite IH.
Qed.

(** X2 clearSnake: clearing twice is clearing once; on a grid of the
    world's dimensions every cell that held a snake glyph becomes blank and
    every other cell keeps its glyph, so afterwards a snake glyph is on the
    grid only if it is the blank itself, and the number of cells holding a
    glyph that is neither a snake glyph nor the blank (the food, normally) is
    unchanged. *)
Theorem clearSnake_erases_only_snake (w : World) :
  wf_grid w ->
  clearSnake (clearSnake w) = clearSnake w /\
  wf_grid (clearSnake w) /\
  (forall q, in_grid w q ->
     exists x, cell_at (data w) q = Ok x /\
       cell_at (data (clearSnake w)) q
       = Ok (if in_chars x (chars (snake w)) then " " else x)) /\
  (forall q y, in_grid w q -> cell_at (data (clearSnake w)) q = Ok y ->
     in_chars y (chars (snake w)) = true -> y = " ") /\
  (forall g, in_chars g (chars (snake w)) = false -> g <> " " ->
     count_glyph g (data (clearSnake w)) = count_glyph g (data w)).
Proof.
  intros Hwf. split; [|split; [by apply clearSnake_dims|split; [|split]]].
  - unfold clearSnake, set_data. simpl. f_equal.
    rewrite map_map. apply map_ext. intros row. rewrite map_map. apply map_ext.
    intros x. apply clear_cell_idemp.
  - intros q Hq. destruct (clearSnake_cell w q Hwf Hq) as (x & Hx & Hx'). by exists x.
  - intros q y Hq Hy Hsnake.
    destruct (clearSnake_cell w q Hwf Hq) as (x & _ & Hx'). rewrite Hx' in Hy.
    injection Hy as <-. unfold clear_cell in *.
    destruct (in_chars x (chars (snake w))) eqn:Hx; [done|congruence].
  - intros g Hg Hblank. by apply count_glyph_clear.
Qed.

Lemma clearSnake_erases_only_snake_witness :
  wf_grid bent_world /\
  count_glyph "*" (data (clearSnake bent_world)) = count_glyph "*" (data bent_world).
Proof.
  assert (Hwf : wf_grid bent_world) by (split; [reflexivity|repeat constructor]).
  split; [exact Hwf|].
  destruct (clearSnake_erases_only_snake bent_world Hwf) as (_ & _ & _ & _ & Hcount).
  apply Hcount; [reflexivity|discriminate].
Defined.

(** * Further properties of placeFood *)

Lemma draw_cell_in_grid (w : World) (r : nat * nat) :
  0 < height w -> 0 < width w -> in_grid w (draw_cell w r).
Proof.
  intros Hh Hw. split; simpl; by apply Z.mod_pos_bound.
Qed.

(** The loop scans the draws in order: it uses up the draws that do not
    land on a blank cell and stops at the first one that does. *)
Lemma placeFood_scan (w : World) :
  wf_grid w -> 0 < height w -> 0 < width w ->
  forall rnd,
    (Forall (fun r => ~ hits_blank w r) rnd /\ placeFood rnd w = OutOfDraws) \/
    (exists skipped r rnd' d',
        rnd = (skipped ++ r :: rnd')%list /\
        Forall (fun r => ~ hits_blank w r) skipped /\ hits_blank w r /\
        set_cell (data w) (draw_cell w r) (foodchar w) = Ok d' /\
        placeFood rnd w = Ok (set_data d' w, rnd')).
Proof.
  intros Hwf Hh Hw. induction rnd as [|[r1 r2] rnd IH]; cbn [placeFood].
  - left. split; [constructor|].
    destruct (Z.leb_spec (height w) 0); [lia|]. by destruct (Z.leb_spec (width w) 0); [lia|].
  - unfold choice_range.
    destruct (Z.leb_spec (height w) 0); [lia|]. destruct (Z.leb_spec (width w) 0); [lia|].
    rsimpl. change (Z.of_nat r1 mod height w, Z.of_nat r2 mod width w)
      with (draw_cell w (r1, r2)).
    pose proof (draw_cell_in_grid w (r1, r2) Hh Hw) as [Hr Hc].
    destruct (cell_at_in_grid _ _ _ Hwf _ Hr Hc) as (x & Hx & _). rewrite Hx. rsimpl.
    destruct (String.eqb_spec x " ") as [->|Hne].
    + right. destruct (set_cell_in_grid _ _ _ Hwf _ (foodchar w) Hr Hc) as (d' & Hd' & _).
      exists [], (r1, r2), rnd, d'. rewrite Hd'. rsimpl.
      split; [done|]. split; [constructor|]. done.
    + assert (Hmiss : ~ hits_blank w (r1, r2)).
      { unfold hits_blank. rewrite Hx. congruence. }
      destruct IH as [[Hall Hout]|(skipped & r & rnd' & d' & -> & Hall & Hhit & Hset & Hpf)].
      * left. split; [by constructor|done].
      * right. exists ((r1, r2) :: skipped), r, rnd', d'.
        split; [done|]. split; [by constructor|]. done.
Qed.

(** X3 placeFood: on a board without cells (height or width not positive)
    [placeFood] raises [IndexError].  On a grid of the world's positive
    dimensions it never raises; it is still sampling when the draws are used
    up exactly when no draw lands on a blank cell; and when it returns it has
    skipped the draws that miss, stopped at the first draw that lands on a
    blank cell, written the food glyph there and changed no other cell and no
    other field, which adds one to the number of food cells when the food
    glyph is not the blank. *)
Theorem placeFood_first_blank_draw (w : World) (rnd : list (nat * nat)) :
  (height w <= 0 \/ width w <= 0 -> placeFood rnd w = Raise IndexError) /\
  (wf_grid w -> 0 < height w -> 0 < width w ->
   (forall e, placeFood rnd w <> Raise e) /\
   (placeFood rnd w = OutOfDraws <-> Forall (fun r => ~ hits_blank w r) rnd) /\
   (forall w' rnd', placeFood rnd w = Ok (w', rnd') ->
      exists skipped r,
        rnd = (skipped ++ r :: rnd')%list /\
        Forall (fun r => ~ hits_blank w r) skipped /\ hits_blank w r /\
        in_grid w (draw_cell w r) /\
        w' = set_data (data w') w /\
        cell_at (data w') (draw_cell w r) = Ok (foodchar w) /\
        (forall q, 0 <= fst q -> 0 <= snd q -> q <> draw_cell w r ->
           cell_at (data w') q = cell_at (data w) q) /\
        (foodchar w <> " " ->
           count_glyph (foodchar w) (data w')
           = S (count_glyph (foodchar w) (data w))))).
Proof.
  split.
  - intros Hdims. destruct rnd as [|[r1 r2] rnd]; cbn [placeFood].
    + destruct (Z.leb_spec (height w) 0), (Z.leb_spec (width w) 0); simpl; (done || lia).
    + unfold choice_range. destruct (Z.leb_spec (height w) 0); [done|]. rsimpl.
      destruct (Z.leb_spec (width w) 0); [done|lia].
  - intros Hwf Hh Hw.
    destruct (placeFood_scan w Hwf Hh Hw rnd)
      as [[Hall Hout]|(skipped & r & rnd' & d' & Hrnd & Hall & Hhit & Hset & Hpf)].
    + rewrite Hout. split; [done|]. split; [done|]. done.
    + rewrite Hpf. split; [done|]. split.
      * split; [done|]. intros Hmiss. rewrite Hrnd in Hmiss.
        apply Forall_app in Hmiss as [_ Hmiss]. apply Forall_cons in Hmiss as [Hmiss _].
        done.
      * intros w' rnd'' [= <- <-]. exists skipped, r.
        pose proof (draw_cell_in_grid w r Hh Hw) as Hin. destruct Hin as [Hr Hc].
        destruct (set_cell_in_grid _ _ _ Hwf _ (foodchar w) Hr Hc)
          as (d'' & Hd'' & _ & Hnew & Hother).
        rewrite Hset in Hd''. injection Hd'' as <-.
        do 3 (split; [done|]). split; [by split|]. split; [done|].
        split; [done|]. split; [done|].
        intros Hfood. simpl.
        pose proof (count_glyph_set_cell _ _ (foodchar w) _ _ _ _ _ Hwf (conj Hr Hc) Hhit Hset)
          as Hcount.
        unfold glyph_bit in Hcount. rewrite String.eqb_refl in Hcount.
        destruct (String.eqb_spec (foodchar w) " "); [done|]. lia.
Qed.

Lemma placeFood_first_blank_draw_witness :
  wf_grid bent_world /\
  forall e, placeFood [(0%nat, 0%nat); (3%nat, 5%nat)] bent_world <> Raise e.
Proof.
  assert (Hwf : wf_grid bent_world) by (split; [reflexivity|repeat constructor]).
  split; [exact Hwf|].
  apply (proj2 (placeFood_first_blank_draw bent_world [(0%nat, 0%nat); (3%nat, 5%nat)]));
    [exact Hwf|reflexivity|reflexivity].
Defined.

(** * Further properties of insertSnake *)

Lemma outside_in_range (h w : Z) (q : Z * Z) :
  ~ inside h w q -> negb (in_range (fst q) h) || negb (in_range (snd q) w) = true.
Proof.
  intros Hout. destruct (negb _ || negb _) eqn:Hrange; [done|].
  destruct Hout. apply orb_false_elim in Hrange as [Hr Hc].
  apply negb_false_iff in Hr, Hc. apply in_range_spec in Hr, Hc. by split.
Qed.

Lemma inside_or_not (h w : Z) (q : Z * Z) : inside h w q \/ ~ inside h w q.
Proof.
  unfold inside. destruct (decide (0 <= fst q < h /\ 0 <= snd q < w)); auto.
Qed.

Section DrawRaises.
Variables (h w : Z).

(** The first piece outside the grid stops the inner loop. *)
Lemma draw_pieces_outside (n : nat) (direction char : string) (mv : Z * Z) :
  matrix_moves direction = Ok mv ->
  forall (d : grid) (p : Z * Z) (mv0 : option (Z * Z)),
    grid_dims h w d ->
    Exists (fun q => ~ inside h w q) (piece_cells n mv p) ->
    draw_pieces n h w direction char (mkCursor d p mv0)
    = Raise (Exception "Snake is out of bounds").
Proof.
  intros Hmv. induction n as [|n IH]; intros d p mv0 Hdims Hex.
  - by apply Exists_nil in Hex.
  - cbn [piece_cells] in Hex. cbn [draw_pieces cur_ptr cur_data].
    destruct (inside_or_not h w p) as [Hin|Hout].
    + apply Exists_cons in Hex as [?|Hex]; [done|].
      rewrite (inside_in_range _ _ _ Hin). destruct Hin as [Hr Hc].
      destruct (set_cell_in_grid _ _ _ Hdims p char Hr Hc) as (d1 & Hd1 & Hdims1 & _).
      rewrite Hd1. rsimpl. rewrite Hmv. rsimpl. by apply IH.
    + by rewrite (outside_in_range _ _ _ Hout).
Qed.

Lemma draw_segments_outside (len : Z) (cs : Chars) (segs : list segment) :
  Forall (fun seg : segment => snd seg ∈ ["N"; "S"; "E"; "W"]) segs ->
  forall (d : grid) (p : Z * Z) (mv0 : option (Z * Z)),
    grid_dims h w d ->
    Exists (fun c => ~ inside h w (fst c)) (snake_cells segs len p) ->
    draw_segments segs len h w cs (mkCursor d p mv0)
    = Raise (Exception "Snake is out of bounds").
Proof.
  induction segs as [|seg rest IH]; intros Hdirs d p mv0 Hdims Hex.
  - by apply Exists_nil in Hex.
  - apply Forall_cons in Hdirs as [Hdir Hdirs].
    destruct (matrix_moves_valid _ Hdir) as (mv & Hmv & _).
    cbn [snake_cells] in Hex. unfold move_of in Hex. rewrite Hmv in Hex.
    set (n := Z.to_nat (seg_length len seg rest)) in *.
    cbn [draw_segments]. fold n.
    destruct (decide (Forall (inside h w) (piece_cells n mv p))) as [Hall|Hsome].
    + destruct (draw_pieces_spec h w n (snd seg) (seg_char cs (snd seg)) mv Hmv d p mv0
                  Hdims Hall) as (d1 & Hdraw & Hdims1 & _).
      rewrite Hdraw. rsimpl. apply IH; [done..|].
      apply Exists_app in Hex as [Hex|Hex]; [|done].
      apply Exists_exists in Hex as (c & Hc & Hout).
      apply list_elem_of_fmap in Hc as (q & -> & Hq). simpl in Hout.
      destruct Hout. by apply (proj1 (Forall_forall _ _) Hall).
    + apply not_Forall_Exists in Hsome; [|intros q; apply _].
      by rewrite (draw_pieces_outside n _ _ mv Hmv d p mv0 Hdims Hsome).
Qed.
End DrawRaises.

(** A snake without a piece leaves the loop state untouched. *)
Lemma draw_segments_nothing (len h w : Z) (cs : Chars) (segs : list segment) :
  forall p, snake_cells segs len p = [] ->
  forall st, draw_segments segs len h w cs st = Ok st.
Proof.
  induction segs as [|seg rest IH]; intros p Hnil st; [done|].
  cbn [snake_cells] in Hnil. apply app_eq_nil in Hnil as [Hn Hrest].
  apply fmap_nil_inv in Hn.
  cbn [draw_segments]. destruct (Z.to_nat (seg_length len seg rest)); [|done].
  cbn [draw_pieces]. rsimpl. by eapply IH.
Qed.

(** X4 insertSnake errors: with a grid of the world's dimensions and
    headings among N, S, E, W, [insertSnake] returns exactly when the snake
    has at least one piece and every piece lies inside the grid; it raises
    "Snake is out of bounds" when some piece lies outside, and
    [UnboundLocalError] (the local [move] was never assigned) when the
    segments give the snake no piece at all, an empty segment list
    included. *)
Theorem insertSnake_outcomes (w : World) :
  wf_grid w ->
  Forall (fun seg : segment => snd seg ∈ ["N"; "S"; "E"; "W"]) (segments (snake w)) ->
  (returns (insertSnake w) <->
     body_cells w <> [] /\ Forall (fun c => in_grid w (fst c)) (body_cells w)) /\
  (Exists (fun c => ~ in_grid w (fst c)) (body_cells w) ->
     insertSnake w = Raise (Exception "Snake is out of bounds")) /\
  (body_cells w = [] -> insertSnake w = Raise UnboundLocalError).
Proof.
  intros Hwf Hdirs.
  assert (Hout : Exists (fun c => ~ in_grid w (fst c)) (body_cells w) ->
                 insertSnake w = Raise (Exception "Snake is out of bounds")).
  { intros Hex. unfold insertSnake.
    by rewrite (draw_segments_outside (height w) (width w) _ _ _ Hdirs _ _ None Hwf Hex). }
  assert (Hnone : body_cells w = [] -> insertSnake w = Raise UnboundLocalError).
  { intros Hnil. unfold insertSnake.
    by rewrite (draw_segments_nothing _ _ _ _ _ _ Hnil). }
  split; [|done]. split.
  - intros [w' Hw']. split.
    + intros Hnil. by rewrite (Hnone Hnil) in Hw'.
    + destruct (decide (Forall (fun c : Z * Z * string => inside (height w) (width w) (fst c))
                          (body_cells w))) as [|Hsome]; [done|].
      apply not_Forall_Exists in Hsome; [|intros c; apply _].
      by rewrite (Hout Hsome) in Hw'.
  - intros [Hne Hall]. by apply insertSnake_returns.
Qed.

Lemma insertSnake_outcomes_witness :
  wf_grid past_edge_world /\
  insertSnake past_edge_world = Raise (Exception "Snake is out of bounds").
Proof.
  assert (Hwf : wf_grid past_edge_world) by apply gen_data_dims.
  split; [exact Hwf|].
  destruct (insertSnake_outcomes past_edge_world Hwf) as (_ & Hout & _).
  - repeat constructor.
  - apply Hout. apply Exists_cons. left. intros [[_ Hrow] _]. simpl in Hrow. lia.
Defined.

(** * Further properties of rendering *)





(** * Collision and food detection after a render *)





(** * How turn, step and grow compose *)

Lemma matrix_moves_unknown (direction : string) :
  direction ∉ ["N"; "S"; "E"; "W"] -> matrix_moves direction = Raise KeyError.
Proof.
  intros Hd. unfold matrix_moves. rewrite !elem_of_cons in Hd.
  destruct (String.eqb_spec direction "N"); [tauto|].
  destruct (String.eqb_spec direction "S"); [tauto|].
  destruct (String.eqb_spec direction "E"); [tauto|].
  destruct (String.eqb_spec direction "W"); [tauto|]. done.
Qed.

(** X7 turn then step: [turn] accepts any string and changes only the
    segment list; the following [step] raises [IndexError] if the snake had
    no segment, [KeyError] if the new heading is not N, S, E or W, and
    otherwise makes the queued segment the head at distance 0 with the new
    heading, moves the head one cell in that heading, adds 1 to the distance
    of the former head segment and leaves every older segment, and every
    other field, as it was. *)
Theorem turn_then_step (w : World) (direction : string) :
  (segments (snake w) = [] -> step (World_turn direction w) = Raise IndexError) /\
  (forall s0 rest, segments (snake w) = s0 :: rest ->
     (direction ∉ ["N"; "S"; "E"; "W"] ->
        step (World_turn direction w) = Raise KeyError) /\
     (direction ∈ ["N"; "S"; "E"; "W"] ->
        exists w' mv,
          matrix_moves direction = Ok mv /\
          step (World_turn direction w) = Ok w' /\
          segments (snake w') = (0, direction) :: (fst s0 + 1, snd s0) :: rest /\
          pos w' = (fst (pos w) + fst mv, snd (pos w) + snd mv) /\
          length (snake w') = length (snake w) /\ chars (snake w') = chars (snake w) /\
          height w' = height w /\ width w' = width w /\
          foodchar w' = foodchar w /\ data w' = data w)).
Proof.
  split.
  - intros Hnil. unfold step, World_turn, turn, turn_segments. simpl. by rewrite Hnil.
  - intros s0 rest Hsegs. split.
    + intros Hd. unfold step, World_turn, turn, turn_segments. simpl. rewrite Hsegs. simpl.
      by rewrite (matrix_moves_unknown _ Hd).
    + intros Hd. destruct (matrix_moves_valid _ Hd) as (mv & Hmv & _).
      eexists _, mv. split; [done|].
      unfold step, World_turn, turn, turn_segments. simpl. rewrite Hsegs. simpl.
      rewrite Hmv. rsimpl. split; [reflexivity|]. done.
Qed.

Lemma turn_then_step_witness :
  exists w', step (World_turn "N" bent_world) = Ok w' /\
    segments (snake w') = [(0, "N"); (1, "S"); (1, "E")] /\ pos w' = (1, 4).
Proof.
  destruct (proj2 (turn_then_step bent_world "N") (0, "S") [(1, "E")] eq_refl)
    as [_ Hvalid].
  destruct Hvalid as (w' & mv & Hmv & Hstep & Hsegs & Hpos & _).
  - apply list_elem_of_here.
  - exists w'. split; [exact Hstep|]. split; [exact Hsegs|].
    rewrite Hpos. injection Hmv as <-. reflexivity.
Defined.

(** X8 straight run: from a state whose front segment is not a queued turn
    and has a heading among N, S, E, W, any number [k] of steps returns,
    whatever the grid bounds: the front segment and so the heading stay as
    they are, the head moves [k] cells along the heading, every other
    segment's distance grows by [k], and nothing else changes. *)
Theorem steps_keep_heading (k : nat) (w : World) (s0 : segment) (rest : list segment) :
  segments (snake w) = s0 :: rest ->
  fst s0 <> -1 ->
  snd s0 ∈ ["N"; "S"; "E"; "W"] ->
  exists w' mv,
    matrix_moves (snd s0) = Ok mv /\
    steps k w = Ok w' /\
    segments (snake w')
    = s0 :: map (fun seg : segment => (fst seg + Z.of_nat k, snd seg)) rest /\
    pos w' = (fst (pos w) + Z.of_nat k * fst mv, snd (pos w) + Z.of_nat k * snd mv) /\
    length (snake w') = length (snake w) /\ chars (snake w') = chars (snake w) /\
    height w' = height w /\ width w' = width w /\
    foodchar w' = foodchar w /\ data w' = data w.
Proof.
  intros Hsegs Hq Hdir. destruct (matrix_moves_valid _ Hdir) as (mv & Hmv & _).
  eexists _, mv. split; [done|].
  split; [by apply (steps_straight k w s0 rest mv)|]. done.
Qed.

Lemma steps_keep_heading_witness :
  exists w', steps 5 bent_world = Ok w' /\ pos w' = (7, 4) /\
    segments (snake w') = [(0, "S"); (6, "E")].
Proof.
  destruct (steps_keep_heading 5 bent_world (0, "S") [(1, "E")] eq_refl)
    as (w' & mv & Hmv & Hsteps & Hsegs & Hpos & _).
  - discriminate.
  - apply list_elem_of_further, list_elem_of_here.
  - exists w'. split; [exact Hsteps|]. injection Hmv as <-. by split.
Defined.



(** X10 grow: the argument is not checked.  Growing twice adds the two
    amounts, and for a snake with a single segment, growing by an amount that
    brings the length down to the segment's distance or below makes the next
    [__repr__] raise [UnboundLocalError], because no piece is drawn. *)
Theorem grow_unchecked (w : World) (a b : Z) :
  World_grow a (World_grow b w) = World_grow (b + a) w /\
  (forall s0, segments (snake w) = [s0] -> length (snake w) + a <= fst s0 ->
     World_repr (World_grow a w) = Raise UnboundLocalError).
Proof.
  split.
  { unfold World_grow, set_snake, grow. simpl. by rewrite Z.add_assoc. }
  intros s0 Hsegs Hlen. unfold World_repr.
  assert (Hnil : body_cells (clearSnake (World_grow a w)) = []).
  { unfold body_cells. simpl. rewrite Hsegs. simpl.
    by replace (Z.to_nat (length (snake w) + a - fst s0)) with 0%nat by lia. }
  unfold insertSnake. by rewrite (draw_segments_nothing _ _ _ _ _ _ Hnil).
Qed.

Lemma grow_unchecked_witness :
  World_repr (World_grow (-3) (mkWorld (default_snake 3) (8, 4) 16 16 "*" (gen_data 16 16)))
  = Raise UnboundLocalError.
Proof.
  apply (proj2 (grow_unchecked (mkWorld (default_snake 3) (8, 4) 16 16 "*" (gen_data 16 16))
                  (-3) 0) (0, "E")); [reflexivity|simpl; lia].
Defined.

(** * The game loop on a snake that runs east *)

Lemma piece_cells_east_bounds (n : nat) (r c : Z) (q : Z * Z) :
  q ∈ piece_cells n (0, 1) (r, c) -> fst q = r /\ c - Z.of_nat n < snd q <= c.
Proof.
  revert c. induction n as [|n IH]; intros c Hq; [by apply elem_of_nil in Hq|].
  cbn [piece_cells] in Hq. apply elem_of_cons in Hq as [->|Hq]; [simpl; lia|].
  simpl in Hq. replace (r - 0) with r in Hq by lia. apply IH in Hq. lia.
Qed.

Lemma piece_cells_east_NoDup (n : nat) (r c : Z) :
  NoDup (piece_cells n (0, 1) (r, c)).
Proof.
  revert c. induction n as [|n IH]; intros c; [constructor|].
  cbn [piece_cells]. simpl. replace (r - 0) with r by lia. constructor; [|apply IH].
  intros Hq. apply piece_cells_east_bounds in Hq. simpl in Hq. lia.
Qed.

Lemma food_bit_clear (cs : Chars) (food x : string) :
  in_chars food cs = false -> food <> " " ->
  String.eqb (clear_cell cs x) food = String.eqb x food.
Proof.
  intros Hfood Hblank. unfold clear_cell. destruct (in_chars x cs) eqn:Hx; [|done].
  transitivity false.
  - apply String.eqb_neq. congruence.
  - symmetry. apply String.eqb_neq. intros ->. congruence.
Qed.

Lemma food_from_ext (d1 d2 : grid) (food : string) (r : Z) (m : nat) :
  forall c,
    (forall j, c <= j < c + Z.of_nat m -> food_bit d1 food (r, j) = food_bit d2 food (r, j)) ->
    food_from d1 food r c m = food_from d2 food r c m.
Proof.
  induction m as [|m IH]; intros c Hsame; [done|].
  cbn [food_from]. rewrite (Hsame c) by lia. f_equal. apply IH. intros j Hj. apply Hsame. lia.
Qed.

Section EastRun.
Variables (fuel : nat) (rnd : list (nat * nat)).

(** One pass of the loop from such a state: at the east edge the pass ends
    the loop; anywhere else it leaves such a state one column further east,
    one longer if the cell entered held the food glyph, with the cells
    further east holding food where they did. *)
Lemma run_iteration_east (w : World) (n : Z) :
  east_state w ->
  in_chars (foodchar w) (chars (snake w)) = false ->
  (snd (pos w) + 1 = width w ->
     exists w2, run_iteration fuel rnd w n = Ok (false, (w2, n, rnd)) /\
       length (snake w2) = length (snake w)) /\
  (snd (pos w) + 1 < width w ->
     exists w',
       let e := food_bit (data w) (foodchar w) (fst (pos w), snd (pos w) + 1) in
       run_iteration fuel rnd w n = Ok (true, (w', n + e, rnd)) /\
       east_state w' /\ length (snake w') = length (snake w) + e /\
       width w' = width w /\ pos w' = (fst (pos w), snd (pos w) + 1) /\
       foodchar w' = foodchar w /\ chars (snake w') = chars (snake w) /\
       forall j, snd (pos w) + 1 < j < width w ->
         food_bit (data w') (foodchar w) (fst (pos w), j)
         = food_bit (data w) (foodchar w) (fst (pos w), j)).
Proof.
  intros (Hwf & Hsegs & Hlen & Hpos & Hroom & Hblank & Hfood & Hloss) Hfood_snake.
  destruct (pos w) as [r c] eqn:Hp. simpl in Hroom. destruct Hpos as [Hr Hc]. simpl in Hr, Hc.
  set (cs := chars (snake w)) in *.
  assert (Hcells : body_cells w
            = map (fun q => (q, "E")) (piece_cells (Z.to_nat (length (snake w))) (0, 1) (r, c))).
  { unfold body_cells. rewrite Hsegs, Hp. cbn [snake_cells seg_length fst snd].
    change (move_of "E") with (0, 1). rewrite app_nil_r. by rewrite Z.sub_0_r. }
  assert (Hpieces : forall q, q ∈ map fst (body_cells w) -> fst q = r /\ snd q <= c).
  { intros q Hq. rewrite Hcells, map_map in Hq. simpl in Hq. rewrite map_id in Hq.
    apply piece_cells_east_bounds in Hq. lia. }
  destruct (insertSnake_cells (clearSnake w) (clearSnake_dims w Hwf))
    as (d1 & Hins & Hdims & _ & _ & _ & _ & Hrest).
  { change (segments (snake (clearSnake w))) with (segments (snake w)).
    rewrite Hsegs. repeat constructor. }
  { change (body_cells (clearSnake w)) with (body_cells w). rewrite Hcells, Forall_fmap.
    eapply Forall_impl; [apply (piece_cells_east_inside (height w) (width w)); lia|done]. }
  { change (body_cells (clearSnake w)) with (body_cells w).
    rewrite Hcells, map_map. simpl. rewrite map_id. apply piece_cells_east_NoDup. }
  { change (body_cells (clearSnake w)) with (body_cells w). rewrite Hcells.
    destruct (Z.to_nat (length (snake w))) eqn:Hn; [lia|done]. }
  change (body_cells (clearSnake w)) with (body_cells w) in Hrest.
  (* the cells east of the head after the render *)
  assert (Heast : forall j, c < j < width w ->
            exists x, cell_at (data w) (r, j) = Ok x /\
              cell_at d1 (r, j) = Ok (clear_cell cs x)).
  { intros j Hj. assert (Hq : in_grid w (r, j)) by (split; simpl; lia).
    destruct (clearSnake_cell w (r, j) Hwf Hq) as (x & Hx & Hx').
    exists x. split; [done|]. rewrite Hrest; [done|simpl; lia..|].
    intros Hin. apply Hpieces in Hin. simpl in Hin. lia. }
  set (w1 := set_data d1 w).
  set (w2 := mkWorld (mkSnake (length (snake w)) cs [(0, "E")]) (r, c + 1)
                     (height w) (width w) (foodchar w) d1).
  assert (Hrepr : World_repr w = Ok (render w1, w1)).
  { unfold World_repr. by rewrite Hins. }
  assert (Hstep : step w1 = Ok w2).
  { unfold step. simpl. rewrite Hsegs, Hp. simpl. unfold w2. do 3 f_equal. lia. }
  unfold run_iteration. rewrite Hrepr. rsimpl. rewrite Hstep. rsimpl.
  split.
  - intros Hedge. simpl in Hedge. exists w2. split; [|done].
    unfold loss. cbn [pos w2 fst snd height width].
    replace (in_range (c + 1) (width w)) with false.
    + destruct (in_range r (height w)); done.
    + symmetry. apply not_true_iff_false. rewrite in_range_spec. lia.
  - intros Hfree. simpl in Hfree. cbn [fst snd].
    assert (Hq : in_grid w (r, c + 1)) by (split; simpl; lia).
    destruct (Heast (c + 1)) as (x & Hx0 & Hcell); [lia|].
    assert (Hbit : food_bit (data w) (foodchar w) (r, c + 1)
                   = if String.eqb x (foodchar w) then 1 else 0).
    { unfold food_bit. by rewrite Hx0. }
    assert (Hsafe : in_chars_tail (clear_cell cs x) cs = false).
    { unfold clear_cell. destruct (in_chars x cs) eqn:Hxin; [done|].
      apply not_true_iff_false. intros Hxt. apply in_chars_tail_spec in Hxt.
      apply not_true_iff_false in Hxin. apply Hxin. unfold in_chars.
      rewrite !orb_true_iff, !String.eqb_eq. tauto. }
    assert (Hloss2 : loss w2 = Ok false).
    { unfold loss. cbn [pos w2 fst snd height width data snake chars].
      replace (in_range r (height w)) with true by (symmetry; apply in_range_spec; lia).
      replace (in_range (c + 1) (width w)) with true by (symmetry; apply in_range_spec; lia).
      simpl. rewrite Hcell. rsimpl. by rewrite Hsafe. }
    assert (Hwf2 : wf_grid w2) by exact Hdims.
    assert (Hkept : forall j, c + 1 < j < width w ->
              food_bit d1 (foodchar w) (r, j) = food_bit (data w) (foodchar w) (r, j)).
    { intros j Hj. destruct (Heast j) as (y & Hy & Hy1); [lia|].
      unfold food_bit. rewrite Hy, Hy1. by rewrite food_bit_clear. }
    rewrite Hloss2. rsimpl.
    unfold onFood at 1. cbn [pos w2 data foodchar]. rewrite Hcell. rsimpl.
    rewrite (food_bit_clear cs (foodchar w) x Hfood_snake Hfood), Hbit.
    destruct (String.eqb x (foodchar w)) eqn:Heq.
    + destruct (eat_places_no_food fuel rnd w2 n Hwf2 Hq Hfood)
        as (d & Hd & Heat & Hcleared & Hothers).
      rewrite Heat. rsimpl.
      exists (set_data d (World_grow 1 w2)). split; [done|].
      assert (Hwf' : wf_grid (set_data d (World_grow 1 w2))).
      { eapply set_cell_dims; [exact Hwf2|exact Hd]. }
      split.
      { split; [done|]. split; [done|]. split; [simpl; lia|].
        split; [done|]. split; [simpl; lia|]. split; [done|]. split; [done|].
        unfold loss. cbn [pos w2 fst snd height width data snake chars set_data World_grow
                            set_snake grow].
        replace (in_range r (height w)) with true by (symmetry; apply in_range_spec; lia).
        replace (in_range (c + 1) (width w)) with true by (symmetry; apply in_range_spec; lia).
        simpl. cbn [pos w2] in Hcleared. rewrite Hcleared. rsimpl. by rewrite Hblank. }
      do 5 (split; [done|]). intros j Hj. cbn [data set_data].
      unfold food_bit at 1. rewrite Hothers.
      * apply (Hkept j Hj).
      * split; simpl; lia.
      * cbn [pos w2]. intros [= ?]. lia.
    + exists w2. rewrite Z.add_0_r. split; [done|].
      split.
      { split; [done|]. split; [done|]. split; [done|]. split; [done|].
        split; [simpl; lia|]. done. }
      split; [simpl; lia|]. do 4 (split; [done|]). exact Hkept.
Qed.

(** The loop from such a state, by the number of columns left. *)
Lemma run_east_columns (m : nat) :
  forall (ticks : nat) (w : World) (n : Z),
    east_state w ->
    in_chars (foodchar w) (chars (snake w)) = false ->
    Z.of_nat m = width w - snd (pos w) ->
    ((m <= ticks)%nat ->
       run ticks fuel rnd w n
       = Ok (length (snake w) + food_ahead w, n + food_ahead w)) /\
    ((ticks < m)%nat -> run ticks fuel rnd w n = OutOfDraws).
Proof.
  induction m as [|m IH]; intros ticks w n Hstate Hfood_snake Hm.
  - destruct Hstate as (_ & _ & _ & [_ Hc] & _). lia.
  - pose proof Hstate as (_ & _ & _ & _ & _ & _ & _ & Hloss).
    destruct (run_iteration_east w n Hstate Hfood_snake) as [Hedge Hfree].
    destruct ticks as [|ticks]; cbn [run]; rewrite Hloss; rsimpl.
    + split; [lia|done].
    + destruct m as [|m].
      * destruct Hedge as (w2 & Hit & Hlen); [lia|]. rewrite Hit. rsimpl.
        split; [|lia]. intros _. unfold food_ahead.
        replace (Z.to_nat (width w - snd (pos w) - 1)) with 0%nat by lia.
        cbn [food_from]. by rewrite Hlen, !Z.add_0_r.
      * destruct Hfree as (w' & Hit & Hstate' & Hlen & Hw & Hpos & Hfc & Hcs & Hkept); [lia|].
        rewrite Hit. rsimpl.
        destruct (IH ticks w' (n + food_bit (data w) (foodchar w) (fst (pos w), snd (pos w) + 1))
                    Hstate') as [Hdone Hshort]; [by rewrite Hfc, Hcs|rewrite Hw, Hpos; simpl; lia|].
        assert (Hahead : food_ahead w
                  = food_bit (data w) (foodchar w) (fst (pos w), snd (pos w) + 1)
                    + food_ahead w').
        { unfold food_ahead. rewrite Hw, Hpos, Hfc. cbn [fst snd].
          replace (Z.to_nat (width w - snd (pos w) - 1))
            with (S (Z.to_nat (width w - (snd (pos w) + 1) - 1))) by lia.
          cbn [food_from]. f_equal. symmetry. apply food_from_ext.
          intros j Hj. apply Hkept. lia. }
        split.
        -- intros Hticks. rewrite Hdone by lia. rewrite Hlen, Hahead. do 2 f_equal; lia.
        -- intros Hticks. apply Hshort. lia.
Qed.
End EastRun.

(** X11 run on a snake that never turned: [run] reads no input, so a snake
    with the single eastbound segment keeps running east.  From a state with
    every piece inside the grid, the loop test false, the blank not a body
    or tail glyph and the food glyph neither the blank nor a snake glyph, the
    loop makes exactly width - column passes: with fewer ticks it is still
    running, with that many it returns, without raising, the final length
    and the food count, each increased by the number of food cells that lay
    in the head's row between the head and the east wall. *)
Theorem run_ends_at_east_wall (ticks fuel : nat) (rnd : list (nat * nat))
    (w : World) (n : Z) :
  east_state w ->
  in_chars (foodchar w) (chars (snake w)) = false ->
  ((Z.to_nat (width w - snd (pos w)) <= ticks)%nat ->
     run ticks fuel rnd w n
     = Ok (length (snake w) + food_ahead w, n + food_ahead w)) /\
  ((ticks < Z.to_nat (width w - snd (pos w)))%nat ->
     run ticks fuel rnd w n = OutOfDraws).
Proof.
  intros Hstate Hfood_snake.
  pose proof Hstate as (_ & _ & _ & [_ Hc] & _).
  apply (run_east_columns fuel rnd (Z.to_nat (width w - snd (pos w))) ticks w n Hstate
           Hfood_snake).
  lia.
Qed.

Lemma run_ends_at_east_wall_witness :
  east_state east_world /\ run 3 1 [] east_world 0 = Ok (4, 1).
Proof.
  assert (Hstate : east_state east_world).
  { split; [split; [reflexivity|repeat constructor]|].
    split; [reflexivity|]. split; [simpl; lia|]. split; [split; simpl; lia|].
    split; [simpl; lia|]. split; [reflexivity|]. split; [discriminate|reflexivity]. }
  split; [exact Hstate|].
  destruct (run_ends_at_east_wall 3 1 [] east_world 0 Hstate eq_refl) as [Hdone _].
  rewrite Hdone; [reflexivity|simpl; lia].
Defined.

(** * The rendered text *)

Lemma string_length_app (a b : string) :
  String.length (a ++ b) = (String.length a + String.length b)%nat.
Proof. induction a as [|ch a IH]; simpl; [done|]. by rewrite IH. Qed.

Lemma str_repeat_length (s : string) (n : Z) :
  String.length (str_repeat s n) = (Z.to_nat n * String.length s)%nat.
Proof.
  unfold str_repeat. induction (Z.to_nat n) as [|k IH]; [done|].
  simpl. change (String.append s ?t) with (s ++ t). rewrite string_length_app, IH. lia.
Qed.

Lemma concat_cells_length (row : list string) :
  Forall (fun cell => String.length cell = 1%nat) row ->
  String.length (fold_right String.append "" row) = List.length row.
Proof.
  induction 1 as [|cell row Hcell _ IH]; [done|].
  simpl. change (String.append cell ?t) with (cell ++ t).
  by rewrite string_length_app, Hcell, IH.
Qed.

Lemma render_rows_length (w0 : nat) (d : grid) :
  Forall (fun row => List.length row = w0 /\
                     Forall (fun cell => String.length cell = 1%nat) row) d ->
  String.length (fold_right String.append "" (map render_row d))
  = (List.length d * (w0 + 3))%nat.
Proof.
  induction 1 as [|row d [Hlen Hcells] _ IH]; [done|].
  simpl. change (String.append (render_row row) ?t) with (render_row row ++ t).
  rewrite string_length_app, IH. unfold render_row.
  rewrite !string_length_app, (concat_cells_length row Hcells), Hlen. simpl. lia.
Qed.

Lemma render_length (w : World) :
  wf_grid w -> 0 <= height w -> 0 <= width w ->
  Forall (Forall (fun cell => String.length cell = 1%nat)) (data w) ->
  Z.of_nat (String.length (render w)) = (height w + 2) * (width w + 3) - 1.
Proof.
  intros [Hlen Hrows] Hh Hw Hcells. unfold render.
  rewrite !string_length_app, !str_repeat_length.
  rewrite (render_rows_length (Z.to_nat (width w))).
  - change (String.length newline) with 1%nat. change (String.length "W") with 1%nat. nia.
  - apply Forall_forall. intros row Hrow. split.
    + apply (proj1 (Forall_forall _ _) Hrows) in Hrow. lia.
    + by apply (proj1 (Forall_forall _ _) Hcells).
Qed.

Lemma string_app_assoc (a b c : string) : ((a ++ b) ++ c = a ++ b ++ c)%string.
Proof.
  induction a as [|ch a IH]; [done|].
  change (String ch ((a ++ b) ++ c) = String ch (a ++ b ++ c))%string. by rewrite IH.
Qed.

Lemma has_char_app (sep : Ascii.ascii) (a b : string) :
  has_char sep (a ++ b) = has_char sep a || has_char sep b.
Proof.
  induction a as [|ch a IH]; simpl; [done|]. by rewrite IH, orb_assoc.
Qed.

Lemma has_char_str_repeat (sep : Ascii.ascii) (s : string) (n : Z) :
  has_char sep s = false -> has_char sep (str_repeat s n) = false.
Proof.
  intros Hs. unfold str_repeat. induction (Z.to_nat n) as [|k IH]; [done|].
  simpl. change (String.append s ?t) with (s ++ t). by rewrite has_char_app, Hs, IH.
Qed.

Lemma has_char_cells (sep : Ascii.ascii) (row : list string) :
  Forall (fun cell => has_char sep cell = false) row ->
  has_char sep (fold_right String.append "" row) = false.
Proof.
  induction 1 as [|cell row Hcell _ IH]; [done|].
  simpl. change (String.append cell ?t) with (cell ++ t). by rewrite has_char_app, Hcell, IH.
Qed.

Lemma has_char_glyph (cell : string) :
  String.length cell = 1%nat -> cell <> newline -> has_char newline_char cell = false.
Proof.
  destruct cell as [|c [|c' rest]]; [done| |done]. intros _ Hne. simpl.
  rewrite orb_false_r. apply Ascii.eqb_neq. intros ->. by apply Hne.
Qed.

(** Splitting at the first separator. *)
Lemma split_on_first (sep : Ascii.ascii) (a b : string) :
  has_char sep a = false ->
  split_on sep (a ++ String sep b) = a :: split_on sep b.
Proof.
  induction a as [|c a IH]; simpl.
  - intros _. by rewrite Ascii.eqb_refl.
  - intros [Hc Ha]%orb_false_elim. by rewrite Hc, (IH Ha).
Qed.

Lemma split_on_none (sep : Ascii.ascii) (a : string) :
  has_char sep a = false -> split_on sep a = [a].
Proof.
  induction a as [|c a IH]; simpl; [done|].
  intros [Hc Ha]%orb_false_elim. by rewrite Hc, (IH Ha).
Qed.

Lemma split_on_nonempty (sep : Ascii.ascii) (s : string) : split_on sep s <> [].
Proof.
  destruct s as [|c s]; simpl; [done|].
  destruct (Ascii.eqb c sep); [done|]. by destruct (split_on sep s).
Qed.

(** The pieces that [split_on] returns hold no separator, and joining them
    with the separator gives the string back. *)
Lemma split_on_pieces (sep : Ascii.ascii) (s : string) :
  Forall (fun piece => has_char sep piece = false) (split_on sep s) /\
  String.concat (String sep "") (split_on sep s) = s.
Proof.
  induction s as [|c s [IHfree IHjoin]]; [by split; [repeat constructor|]|].
  pose proof (split_on_nonempty sep s) as Hne.
  cbn [split_on]. destruct (split_on sep s) as [|piece pieces]; [done|].
  destruct (Ascii.eqb_spec c sep) as [->|Hc].
  - split; [by constructor|].
    change (String sep (String.concat (String sep "") (piece :: pieces)) = String sep s).
    by rewrite IHjoin.
  - apply Forall_cons in IHfree as [Hpiece Hrest]. split.
    + constructor; [|done]. cbn [has_char]. rewrite Hpiece.
      by rewrite (proj2 (Ascii.eqb_neq c sep) Hc).
    + rewrite <- IHjoin. by destruct pieces.
Qed.

Lemma render_rows_join (d : grid) (border : string) :
  (fold_right String.append "" (map render_row d) ++ border)%string
  = String.concat newline (map frame_row d ++ [border])%list.
Proof.
  induction d as [|row d IH]; [done|].
  cbn [map fold_right app]. change (String.append (render_row row) ?t) with (render_row row ++ t).
  rewrite string_app_assoc, IH.
  destruct (map frame_row d ++ [border])%list as [|line lines] eqn:Hlines.
  { by destruct d. }
  cbn [String.concat]. unfold render_row, frame_row.
  by rewrite !string_app_assoc.
Qed.

Lemma render_rows_split (d : grid) (border : string) :
  Forall (fun row => has_char newline_char (fold_right String.append "" row) = false) d ->
  has_char newline_char border = false ->
  split_on newline_char (fold_right String.append "" (map render_row d) ++ border)
  = (map frame_row d ++ [border])%list.
Proof.
  intros Hrows Hborder. induction Hrows as [|row d Hrow _ IH]; [by apply split_on_none|].
  cbn [map fold_right app]. change (String.append (render_row row) ?t) with (render_row row ++ t).
  rewrite string_app_assoc. unfold render_row at 1.
  replace (("W" ++ fold_right String.append "" row ++ "W" ++ newline)
           ++ fold_right String.append "" (map render_row d) ++ border)%string
    with (frame_row row
          ++ String newline_char (fold_right String.append "" (map render_row d) ++ border))%string.
  - rewrite split_on_first, IH; [done|].
    unfold frame_row. by rewrite !has_char_app, Hrow.
  - unfold frame_row. rewrite !string_app_assoc. done.
Qed.

(** X12 the text of __repr__: the text is the lines of the frame (the top
    border, one line per grid row between two wall characters, the bottom
    border) joined by single newlines.  When the grid has the world's
    (non-negative) dimensions and every cell holds a one-character glyph,
    these are height + 2 lines of width + 2 characters each and the text has
    (height + 2) * (width + 3) - 1 characters; when moreover no cell is the
    newline, splitting the text at its newlines gives back exactly these
    lines. *)
Theorem render_is_rectangular (w : World) :
  wf_grid w -> 0 <= height w -> 0 <= width w ->
  Forall (Forall (fun cell => String.length cell = 1%nat)) (data w) ->
  render w = String.concat newline (frame_lines w) /\
  Z.of_nat (List.length (frame_lines w)) = height w + 2 /\
  Forall (fun line => Z.of_nat (String.length line) = width w + 2) (frame_lines w) /\
  Z.of_nat (String.length (render w)) = (height w + 2) * (width w + 3) - 1 /\
  (Forall (Forall (fun cell => cell <> newline)) (data w) ->
   split_on newline_char (render w) = frame_lines w /\
   Forall (fun line => has_char newline_char line = false) (frame_lines w)).
Proof.
  intros Hwf Hh Hw Hcells. pose proof Hwf as [Hlen Hrows].
  assert (Hborder : has_char newline_char (str_repeat "W" (width w + 2)) = false)
    by by apply has_char_str_repeat.
  split; [|split; [|split; [|split]]].
  - unfold render, frame_lines. rewrite render_rows_join.
    destruct (map frame_row (data w) ++ [_])%list as [|line lines] eqn:Hlines.
    { by destruct (data w). }
    done.
  - unfold frame_lines. cbn [List.length]. rewrite length_app, length_map. simpl. lia.
  - unfold frame_lines. constructor; [|apply Forall_app; split].
    + rewrite str_repeat_length. simpl. lia.
    + apply Forall_fmap, Forall_forall. intros row Hrow. unfold frame_row. simpl.
      rewrite !string_length_app, concat_cells_length
        by by apply (proj1 (Forall_forall _ _) Hcells).
      apply (proj1 (Forall_forall _ _) Hrows) in Hrow. simpl. lia.
    + constructor; [|done]. rewrite str_repeat_length. simpl. lia.
  - by apply render_length.
  - intros Hnl.
    assert (Hfree : Forall (fun row => has_char newline_char
                                         (fold_right String.append "" row) = false) (data w)).
    { apply Forall_forall. intros row Hrow. apply has_char_cells.
      apply Forall_forall. intros cell Hcell. apply has_char_glyph.
      - by apply (proj1 (Forall_forall _ _) (proj1 (Forall_forall _ _) Hcells row Hrow)).
      - by apply (proj1 (Forall_forall _ _) (proj1 (Forall_forall _ _) Hnl row Hrow)). }
    split.
    + unfold render, frame_lines.
      change (str_repeat "W" (width w + 2) ++ newline ++ ?t)%string
        with (str_repeat "W" (width w + 2) ++ String newline_char t)%string.
      rewrite split_on_first by done. by rewrite render_rows_split.
    + unfold frame_lines. constructor; [done|]. apply Forall_app. split; [|by constructor].
      apply Forall_fmap. eapply Forall_impl; [exact Hfree|].
      intros row Hrow. unfold frame_row. simpl. by rewrite !has_char_app, Hrow.
Qed.

Lemma render_is_rectangular_witness :
  wf_grid east_world /\
  split_on newline_char (render east_world)
  = ["WWWWWWW"; "W     W"; "Wx-X *W"; "W     W"; "WWWWWWW"] /\
  Z.of_nat (String.length (render east_world)) = 39.
Proof.
  assert (Hwf : wf_grid east_world) by (split; [reflexivity|repeat constructor]).
  split; [exact Hwf|].
  destruct (render_is_rectangular east_world Hwf) as (_ & _ & _ & Hlength & Hsplit);
    [simpl; lia..|repeat constructor|].
  split; [|exact Hlength].
  apply Hsplit. repeat constructor; discriminate.
Defined.

(** * Snake.__repr__ *)

(** X13 Snake.__repr__: for a snake without a segment the text cannot be
    built and [IndexError] is raised; after [turn] the text is always built
    and already names the queued heading, before any step has made it the
    head; [grow] changes the text only through the length. *)
Theorem Snake_repr_reports_queued_heading (s : Snake) (direction : string) (n : Z) :
  (segments s = [] -> Snake_repr s = Raise IndexError) /\
  Snake_repr (turn direction s)
  = Ok ("Snake of length " ++ str_of_int (length s) ++ " traveling " ++ direction) /\
  (forall s0 rest, segments s = s0 :: rest ->
     Snake_repr (grow n s)
     = Ok ("Snake of length " ++ str_of_int (length s + n) ++ " traveling " ++ snd s0)).
Proof.
  split; [|split].
  - intros Hnil. unfold Snake_repr. by rewrite Hnil.
  - unfold Snake_repr, turn, turn_segments. cbn [segments length].
    by rewrite py_get_head.
  - intros s0 rest Hsegs. unfold Snake_repr, grow. cbn [segments length].
    rewrite Hsegs. by rewrite py_get_head.
Qed.

Lemma Snake_repr_reports_queued_heading_witness :
  Snake_repr (grow 9 (default_snake 3)) = Ok "Snake of length 12 traveling E".
Proof.
  apply (proj2 (proj2 (Snake_repr_reports_queued_heading (default_snake 3) "N" 9))
           (0, "E") []).
  reflexivity.
Defined.

(** * What construction leaves on the grid *)

(** Assignments inside the grid, overlapping or not: a written cell holds
    one of the glyphs written to it, any other cell is as before. *)
Lemma write_all_any (h w : Z) (ws : list ((Z * Z) * string)) :
  forall d d' : grid,
    grid_dims h w d ->
    Forall (fun c => inside h w (fst c)) ws ->
    write_all ws d = Ok d' ->
    forall q, 0 <= fst q -> 0 <= snd q ->
      (q ∈ map fst ws -> exists x, (q, x) ∈ ws /\ cell_at d' q = Ok x) /\
      (q ∉ map fst ws -> cell_at d' q = cell_at d q).
Proof.
  induction ws as [|[q0 x0] ws IH]; intros d d' Hdims Hin Hw q Hq1 Hq2.
  - injection Hw as <-. split; [|done]. intros Hq. by apply elem_of_nil in Hq.
  - apply Forall_cons in Hin as [[Hr Hc] Hin]. simpl in Hr, Hc.
    cbn [write_all] in Hw. apply bind_Ok in Hw as (d1 & Hd1 & Hw).
    destruct (set_cell_in_grid _ _ _ Hdims q0 x0 Hr Hc)
      as (d1' & Hd1' & Hdims1 & Hsame & Hother).
    rewrite Hd1 in Hd1'. injection Hd1' as <-.
    destruct (IH d1 d' Hdims1 Hin Hw q Hq1 Hq2) as [Hwritten Hkept].
    destruct (decide (q ∈ map fst ws)) as [Hqw|Hqw].
    + split; [|intros Hno; destruct Hno; simpl; by apply list_elem_of_further].
      intros _. destruct (Hwritten Hqw) as (x & Hx & Hcell).
      exists x. split; [by apply list_elem_of_further|done].
    + split.
      * intros Hq. simpl in Hq. apply elem_of_cons in Hq as [->|?]; [|done].
        exists x0. split; [apply list_elem_of_here|]. by rewrite Hkept.
      * intros Hq. simpl in Hq. apply not_elem_of_cons in Hq as [Hne _].
        rewrite Hkept by done. by apply Hother.
Qed.

(** A returning [insertSnake] has drawn at least one piece, and all its
    pieces were inside the grid. *)
Lemma insertSnake_Ok_inside (w w' : World) :
  wf_grid w ->
  Forall (fun seg : segment => snd seg ∈ ["N"; "S"; "E"; "W"]) (segments (snake w)) ->
  insertSnake w = Ok w' ->
  body_cells w <> [] /\ Forall (fun c => in_grid w (fst c)) (body_cells w).
Proof.
  intros Hwf Hdirs Hins. split.
  - intros Hnil. unfold insertSnake in Hins.
    by rewrite (draw_segments_nothing _ _ _ _ _ _ Hnil) in Hins.
  - destruct (decide (Forall (fun c : Z * Z * string => inside (height w) (width w) (fst c))
                        (body_cells w))) as [|Hsome]; [done|].
    apply not_Forall_Exists in Hsome; [|intros c; apply _].
    unfold insertSnake in Hins.
    by rewrite (draw_segments_outside (height w) (width w) _ _ _ Hdirs _ _ None Hwf Hsome)
      in Hins.
Qed.

(** After [insertSnake], every cell the snake covers holds a snake glyph
    and every other cell is as before, also when pieces overlap. *)
Lemma insertSnake_covers (w w' : World) :
  wf_grid w ->
  Forall (fun seg : segment => snd seg ∈ ["N"; "S"; "E"; "W"]) (segments (snake w)) ->
  insertSnake w = Ok w' ->
  forall q, in_grid w q ->
    (q ∈ map fst (body_cells w) ->
       exists x, cell_at (data w') q = Ok x /\ in_chars x (chars (snake w)) = true) /\
    (q ∉ map fst (body_cells w) -> cell_at (data w') q = cell_at (data w) q).
Proof.
  intros Hwf Hdirs Hins q Hq.
  destruct (insertSnake_Ok_inside w w' Hwf Hdirs Hins) as [Hne Hin].
  unfold body_cells in *.
  destruct (draw_segments_spec (height w) (width w) (length (snake w)) (chars (snake w))
              _ Hdirs (data w) (pos w) None Hwf Hin)
    as (d1 & p1 & mv1 & Hdraw & Hdims1 & Hw & Hlast).
  remember (snake_cells (segments (snake w)) (length (snake w)) (pos w)) as cells eqn:Hcells.
  destruct (last cells) as [cl|] eqn:Hcl; [|by apply last_None in Hcl].
  destruct Hlast as (mv & -> & Hcl_pos).
  assert (Hcl_in : cl ∈ cells) by by apply last_Some_elem_of.
  assert (Hpos_cell : pos w ∈ map fst cells).
  { destruct cells as [|c0 cells']; [done|]. symmetry in Hcells.
    apply snake_cells_first in Hcells. rewrite <- Hcells. simpl. apply list_elem_of_here. }
  assert (Hgrid : forall c, c ∈ cells -> in_grid w (fst c)).
  { intros c Hc. by apply (proj1 (Forall_forall _ _) Hin c). }
  assert (Hpos_in : in_grid w (pos w)).
  { apply list_elem_of_fmap in Hpos_cell as (c & -> & Hc). by apply Hgrid. }
  destruct (Hgrid cl Hcl_in) as [Hclr Hclc].
  destruct (set_cell_in_grid _ _ _ Hdims1 (fst cl) (c_tail (chars (snake w))) Hclr Hclc)
    as (d2 & Hd2 & Hdims2 & Htail & Hother2).
  destruct (set_cell_in_grid _ _ _ Hdims2 (pos w) (c_head (chars (snake w)))
              (proj1 Hpos_in) (proj2 Hpos_in))
    as (d3 & Hd3 & Hdims3 & Hhead & Hother3).
  unfold insertSnake in Hins. rewrite Hdraw in Hins. cbn [mbind result_bind] in Hins.
  cbn [cur_move cur_ptr cur_data] in Hins. rewrite <- Hcl_pos, Hd2 in Hins.
  cbn [mbind result_bind] in Hins. rewrite Hd3 in Hins. injection Hins as <-.
  cbn [data set_data].
  assert (Hin' : Forall (fun c : Z * Z * string => inside (height w) (width w) (fst c))
                   (map (fun c => (fst c, seg_char (chars (snake w)) (snd c))) cells)).
  { by rewrite Forall_fmap. }
  destruct Hq as [[Hq1 ?] [Hq2 ?]].
  destruct (write_all_any _ _ _ _ _ Hwf Hin' Hw q Hq1 Hq2) as [Hwritten Hkept].
  rewrite map_map in Hwritten, Hkept. simpl in Hwritten, Hkept.
  assert (Hsegchar : forall direction,
             in_chars (seg_char (chars (snake w)) direction) (chars (snake w)) = true).
  { intros direction. unfold seg_char, in_chars.
    destruct (is_horizontal _); rewrite String.eqb_refl; by rewrite ?orb_true_r. }
  destruct (decide (q = pos w)) as [->|Hqp].
  { split; [|done]. intros _. eexists. split; [exact Hhead|apply in_chars_head]. }
  rewrite Hother3 by done.
  destruct (decide (q = fst cl)) as [->|Hql].
  { split; [|intros Hno; destruct Hno; by apply (list_elem_of_fmap_2 fst)].
    intros _. eexists. split; [exact Htail|apply in_chars_tail_glyph]. }
  rewrite Hother2 by done. split; [|done].
  intros Hcov. destruct (Hwritten Hcov) as (x & Hx & Hcell).
  exists x. split; [done|].
  apply list_elem_of_fmap in Hx as (c & [= _ ->] & _). apply Hsegchar.
Qed.

(** A glyph that no cell holds is counted zero times. *)
Lemma count_glyph_absent (h w : Z) (g : string) (d : grid) :
  grid_dims h w d ->
  (forall q, inside h w q -> cell_at d q <> Ok g) ->
  count_glyph g d = 0%nat.
Proof.
  intros Hdims Habsent. unfold count_glyph.
  assert (Hrows : Forall (fun n => n = 0%nat)
            (map (fun row => List.length (List.filter (String.eqb g) row)) d)).
  { rewrite Forall_fmap. apply Forall_lookup. intros i row Hrow. simpl.
    assert (Hi : 0 <= Z.of_nat i < h).
    { destruct Hdims as [Hlen _]. apply lookup_lt_Some in Hrow. lia. }
    destruct (grid_row _ _ _ Hdims _ Hi) as (row' & Hrow' & Hlen).
    rewrite Nat2Z.id, Hrow in Hrow'. injection Hrow' as <-.
    assert (Hnone : Forall (fun x => String.eqb g x = false) row).
    { apply Forall_lookup. intros j x Hx. apply String.eqb_neq. intros <-.
      apply (Habsent (Z.of_nat i, Z.of_nat j)).
      - split; simpl; [done|]. apply lookup_lt_Some in Hx. lia.
      - unfold cell_at. simpl. rewrite py_get_nonneg by lia. rewrite Nat2Z.id, Hrow.
        cbn [mbind result_bind]. rewrite py_get_nonneg by lia. by rewrite Nat2Z.id, Hx. }
    clear -Hnone. induction Hnone as [|x row Hx _ IH]; [done|]. simpl. by rewrite Hx. }
  induction Hrows as [|n ns -> _ IH]; [done|]. simpl. exact IH.
Qed.

(** X14 a constructed world: when [World.__init__] returns for a snake with
    headings among N, S, E, W, a food glyph that is neither the blank nor a
    snake glyph, and a blank that is not a snake glyph, the grid holds a
    snake glyph on exactly the cells the snake covers, the food glyph on
    exactly one cell, which the snake does not cover, and the blank
    everywhere else. *)
Theorem World_init_grid (s : Snake) (p : option (Z * Z)) (h w : Z) (fc : string)
    (rnd rnd' : list (nat * nat)) (w0 : World) :
  World_init s p h w fc rnd = Ok (w0, rnd') ->
  Forall (fun seg : segment => snd seg ∈ ["N"; "S"; "E"; "W"]) (segments s) ->
  fc <> " " -> in_chars fc (chars s) = false -> in_chars " " (chars s) = false ->
  count_glyph fc (data w0) = 1%nat /\
  exists food,
    in_grid w0 food /\ (food ∉ map fst (body_cells w0)) /\
    forall q, in_grid w0 q ->
      exists x, cell_at (data w0) q = Ok x /\
        (q ∈ map fst (body_cells w0) -> in_chars x (chars s) = true) /\
        (q = food -> x = fc) /\
        (q ∉ map fst (body_cells w0) -> q <> food -> x = " ").
Proof.
  intros Hinit Hdirs Hfc Hfc_snake Hblank.
  pose proof (World_init_Ok _ _ _ _ _ _ _ _ Hinit) as (Hwf0 & Hsn0 & Hh0 & Hw0 & Hfc0 & Hp0 & _).
  unfold World_init in Hinit.
  set (start := match p with Some p => p | None => _ end) in *.
  destruct (snd start <? length s - 1); [discriminate|].
  apply bind_Ok in Hinit as (w1 & Hins & Hpf).
  set (wg := gen (mkWorld s start h w fc [[]])) in *.
  assert (Hwfg : wf_grid wg) by apply gen_data_dims.
  pose proof (insertSnake_covers wg w1 Hwfg Hdirs Hins) as Hcov.
  apply insertSnake_Ok in Hins as (Hwf1 & Hsn1 & Hpos1 & Hh1 & Hw1 & Hfc1 & _); [|done].
  simpl in Hsn1, Hpos1, Hh1, Hw1, Hfc1.
  assert (Hcells1 : forall q, in_grid w1 q ->
            exists x, cell_at (data w1) q = Ok x /\
              (q ∈ map fst (body_cells wg) -> in_chars x (chars s) = true) /\
              (q ∉ map fst (body_cells wg) -> x = " ")).
  { intros q Hq. assert (Hqg : in_grid wg q).
    { unfold in_grid in *. rewrite Hh1, Hw1 in Hq. exact Hq. }
    destruct (Hcov q Hqg) as [Hc1 Hc2].
    destruct (decide (q ∈ map fst (body_cells wg))) as [Hqc|Hqc].
    - destruct (Hc1 Hqc) as (x & Hx & Hsnake). exists x. split; [done|]. split; [done|done].
    - exists " ". rewrite (Hc2 Hqc). destruct Hqg as [? ?].
      split; [by apply gen_data_blank|]. split; [done|done]. }
  assert (Hbody : body_cells w0 = body_cells wg).
  { unfold body_cells. rewrite Hsn0. simpl. by rewrite Hp0. }
  pose proof (placeFood_Ok _ _ _ _ Hpf) as (food & Hfood_in & Hfood_blank & Hset & _ & _).
  destruct Hfood_in as [Hfr Hfcol].
  destruct (set_cell_in_grid _ _ _ Hwf1 food (foodchar w1) Hfr Hfcol)
    as (d' & Hd' & _ & Hnew & Hother).
  rewrite Hset in Hd'. injection Hd' as <-.
  assert (Hgrid01 : forall q, (in_grid w0 q) <-> (in_grid w1 q)).
  { intros q. unfold in_grid. by rewrite Hh0, Hw0, Hh1, Hw1. }
  assert (Hfood_free : food ∉ map fst (body_cells wg)).
  { intros Hcovd. destruct (Hcells1 food (conj Hfr Hfcol)) as (x & Hx & Hsnake & _).
    rewrite Hx in Hfood_blank. injection Hfood_blank as ->.
    specialize (Hsnake Hcovd). congruence. }
  split.
  - pose proof (count_glyph_set_cell _ _ fc _ _ _ _ _ Hwf1 (conj Hfr Hfcol) Hfood_blank Hset)
      as Hcount.
    rewrite (count_glyph_absent (height w1) (width w1) fc (data w1) Hwf1) in Hcount.
    + unfold glyph_bit in Hcount. rewrite Hfc1, String.eqb_refl in Hcount.
      destruct (String.eqb_spec fc " "); [done|]. lia.
    + intros q Hq Hcell. destruct (Hcells1 q Hq) as (x & Hx & Hsnake & Hfree).
      rewrite Hx in Hcell. injection Hcell as ->.
      destruct (decide (q ∈ map fst (body_cells wg))) as [Hqc|Hqc].
      * specialize (Hsnake Hqc). congruence.
      * by specialize (Hfree Hqc).
  - exists food. rewrite Hbody. split; [by apply Hgrid01|]. split; [done|].
    intros q Hq. apply Hgrid01 in Hq.
    destruct (decide (q = food)) as [->|Hne].
    + exists fc. rewrite Hnew, Hfc1. split; [done|]. split; [done|]. split; [done|done].
    + destruct (Hcells1 q Hq) as (x & Hx & Hsnake & Hfree).
      exists x. destruct Hq as [[] []]. rewrite Hother by done.
      split; [done|]. split; [done|]. split; [done|]. intros Hqc _. by apply Hfree.
Qed.

Lemma World_init_grid_witness :
  exists w0 rnd',
    World_init (default_snake 3) None 16 16 "*" [(8%nat, 5%nat)] = Ok (w0, rnd') /\
    count_glyph "*" (data w0) = 1%nat.
Proof.
  destruct (World_init (default_snake 3) None 16 16 "*" [(8%nat, 5%nat)])
    as [[w0 rnd']| |] eqn:Hinit; [|vm_compute in Hinit; discriminate..].
  exists w0, rnd'. split; [reflexivity|].
  destruct (World_init_grid _ _ _ _ _ _ _ _ Hinit) as [Hcount _].
  - repeat constructor.
  - discriminate.
  - reflexivity.
  - reflexivity.
  - exact Hcount.
Defined.

(** * Steps on snakes that share the default segment list *)

(** X15 shared steps: for two snakes constructed with the default segments,
    each in its own world, a [turn] of the first steers the second: the next
    [step] of the second snake's world consumes the queued turn and moves
    that world's head in the first snake's new heading; afterwards both
    snakes have the same promoted segments, and a [step] of the first
    snake's world moves its head the same way and adds 1 to the distances the
    other snake sees, which then count two steps although each head has
    moved once. *)
Theorem shared_steps_affect_all (st : Shared.Store) (a b : Shared.SnakeObj)
    (la lb : Z) (ca cb : option Chars) (direction : string)
    (s0 : segment) (rest : list segment) (pa pb : Z * Z) :
  Shared.lists st !! Shared.default_ref st = Some (s0 :: rest) ->
  Shared.Snake_init la None ca st = Ok a ->
  Shared.Snake_init lb None cb st = Ok b ->
  direction ∈ ["N"; "S"; "E"; "W"] ->
  exists mv st1 st2,
    matrix_moves direction = Ok mv /\
    shared_step (Shared.turn direction a st) b pb
    = Ok (st1, (fst pb + fst mv, snd pb + snd mv)) /\
    segments (Shared.view st1 a) = (0, direction) :: (fst s0 + 1, snd s0) :: rest /\
    segments (Shared.view st1 b) = (0, direction) :: (fst s0 + 1, snd s0) :: rest /\
    shared_step st1 a pa = Ok (st2, (fst pa + fst mv, snd pa + snd mv)) /\
    segments (Shared.view st2 b)
    = (0, direction) :: (fst s0 + 2, snd s0) :: map bump rest.
Proof.
  intros Hdef Ha Hb Hd. destruct (matrix_moves_valid _ Hd) as (mv & Hmv & _).
  unfold Shared.Snake_init in Ha, Hb. simpl in Ha, Hb.
  apply bind_Ok in Ha as (_ & _ & [= <-]). apply bind_Ok in Hb as (_ & _ & [= <-]).
  set (r := Shared.default_ref st) in *.
  set (segs1 := (0, direction) :: (fst s0 + 1, snd s0) :: rest).
  set (st1 := Shared.mkStore
                (<[r := segs1]> (alter (turn_segments direction) r (Shared.lists st))) r).
  set (segs2 := (0, direction) :: (fst s0 + 2, snd s0) :: map bump rest).
  set (st2 := Shared.mkStore (<[r := segs2]> (Shared.lists st1)) r).
  exists mv, st1, st2. split; [done|].
  assert (Hstep1 : shared_step (Shared.turn direction
                      (Shared.mkSnakeObj la (default default_chars ca) r) st)
                      (Shared.mkSnakeObj lb (default default_chars cb) r) pb
                   = Ok (st1, (fst pb + fst mv, snd pb + snd mv))).
  { unfold shared_step, Shared.deref, Shared.turn. cbn [Shared.lists Shared.obj_segments].
    fold r. rewrite lookup_alter_eq, Hdef. simpl. rewrite Hmv. done. }
  assert (Hseen1 : Shared.deref st1 r = segs1).
  { unfold Shared.deref, st1. cbn [Shared.lists]. by rewrite lookup_insert_eq. }
  split; [done|]. split; [done|]. split; [done|]. split.
  - unfold shared_step. cbn [Shared.obj_segments]. rewrite Hseen1. unfold segs1.
    simpl. rewrite Hmv. rsimpl. unfold st2, segs2.
    replace (bump (fst s0 + 1, snd s0)) with (fst s0 + 2, snd s0); [done|].
    unfold bump. simpl. f_equal. lia.
  - unfold Shared.view, Shared.deref, st2. cbn [segments Shared.lists Shared.obj_segments].
    by rewrite lookup_insert_eq.
Qed.

Lemma shared_steps_affect_all_witness :
  exists st1,
    shared_step (Shared.turn "N" (Shared.mkSnakeObj 3 default_chars 0) Shared.class_defined)
      (Shared.mkSnakeObj 5 default_chars 0) (8, 4)
    = Ok (st1, (7, 4)).
Proof.
  destruct (shared_steps_affect_all Shared.class_defined
              (Shared.mkSnakeObj 3 default_chars 0) (Shared.mkSnakeObj 5 default_chars 0)
              3 5 None None "N" (0, "E") [] (8, 4) (8, 4))
    as (mv & st1 & st2 & Hmv & Hstep & _); [reflexivity..| |].
  - apply list_elem_of_here.
  - exists st1. rewrite Hstep. injection Hmv as <-. reflexivity.
Defined.

(** * Rendering with the head outside the grid *)

(** X16 head outside the grid: in a state whose snake draws at least one
    piece with headings among N, S, E, W, if the head position is outside
    the grid then [loss] returns true and [__repr__] raises "Snake is out of
    bounds" at its first piece; the game loop tests [loss] right after each
    step and so never prints such a state. *)
Theorem repr_raises_when_head_outside (w : World) :
  wf_grid w ->
  Forall (fun seg : segment => snd seg ∈ ["N"; "S"; "E"; "W"]) (segments (snake w)) ->
  body_cells w <> [] ->
  ~ in_grid w (pos w) ->
  loss w = Ok true /\
  World_repr w = Raise (Exception "Snake is out of bounds").
Proof.
  intros Hwf Hdirs Hne Hout. split.
  - destruct (loss_returns w Hwf) as (b & Hloss & Hb). rewrite Hloss. f_equal.
    apply Hb. by left.
  - assert (Hex : Exists (fun c : Z * Z * string => ~ inside (height w) (width w) (fst c))
                    (body_cells w)).
    { destruct (body_cells w) as [|c0 cells] eqn:Hcells; [done|].
      apply snake_cells_first in Hcells. apply Exists_cons. left. by rewrite Hcells. }
    unfold World_repr, insertSnake.
    rewrite (draw_segments_outside (height w) (width w) (length (snake w))
               (chars (snake w)) (segments (snake w)) Hdirs _ (pos w) None); [done| |].
    + apply (clearSnake_dims w Hwf).
    + exact Hex.
Qed.

Lemma repr_raises_when_head_outside_witness :
  wf_grid past_edge_world /\
  World_repr past_edge_world = Raise (Exception "Snake is out of bounds").
Proof.
  assert (Hwf : wf_grid past_edge_world) by apply gen_data_dims.
  split; [exact Hwf|].
  apply (repr_raises_when_head_outside past_edge_world Hwf).
  - repeat constructor.
  - discriminate.
  - intros [[_ Hrow] _]. simpl in Hrow. lia.
Defined.

Lemma gen_blank_room_witness :
  in_grid bent_world (0, 0) /\
  cell_at (data (gen bent_world)) (0, 0) = Ok " " /\
  cell_at (data (gen bent_world)) (-1, 0) = Ok " " /\
  cell_at (data (gen bent_world)) (4, 0) = Raise IndexError /\
  cell_at (data (gen bent_world)) (0, -7) = Raise IndexError.
Proof.
  assert (Hin : in_grid bent_world (0, 0)) by (split; simpl; lia).
  split; [exact Hin|].
  destruct (gen_blank_room bent_world)
    as (_ & _ & _ & _ & _ & _ & Hblank & _ & _ & Hread & Hraise).
  split; [exact (Hblank (0, 0) Hin)|].
  split; [apply (Hread (-1, 0)); simpl; lia|].
  split; apply Hraise; simpl; lia.
Defined.
